(** * delegate.hpp: a two-word, non-owning callable reference

    Shallow embedding of [include/delegate/delegate.hpp] and proofs about
    binding, dispatch, equality, ordering and value semantics of
    [delegate<R(Args...)>] and [MemFkn<Del, cnst>].

    Conventions of the embedding

    - Pointers are addresses in [Z]; [nullptr] is [0].  Object references
      ([T&], [T const&]) are passed as the address of the object: the code
      only ever takes [&o] of them.  Constness is a property of the C++
      types and leaves no trace in the stored values; where the code casts
      it away with [const_cast] the address is stored as it is.  The one
      place that hands a [const void*] on without a cast is recorded as
      such: the initialisation has no viable constructor, and what is
      built on it is [ill_formed].
    - A trampoline pointer is the identity of the adapter function it points
      to: the adapter template together with its template arguments.  Two
      trampoline pointers compare equal with [==] exactly when they name the
      same function.  The relational [<] on them compares the addresses that
      the linker gave to the functions; that assignment is a parameter
      ([addr]) of everything that uses [<].
    - The union [DataPtr] is an inductive with one constructor per member;
      the accessors read the shared word whichever member is active.
    - A call runs in a state-and-failure monad over the program's memory:
      [None] is undefined behaviour (a call through a null function
      pointer), [Some (r, mem')] a normal return. *)

From Stdlib Require Import ZArith Lia Bool.
From stdpp Require Import base decidable option countable strings gmap.

Local Open Scope Z_scope.

(** ** Pointers *)

Definition VoidPtr : Type := Z.
Definition nullptr : Z := 0.

(** [TargetFreeCB], a pointer to a function [R(Args...)]: the address of a
    free function. *)
Definition TargetFreeCB : Type := Z.

(** Names of the classes and member functions used as template arguments. *)
Definition ClassName : Type := string.
Definition MemberName : Type := string.

(** ** [details::nullReturnFunction] and value initialisation [T{}] *)

Class ValueInit (T : Type) : Type := value_init : T.

Definition void : Type := unit.

#[export] Instance ValueInit_void : ValueInit void := tt.
#[export] Instance ValueInit_int : ValueInit Z := 0.
#[export] Instance ValueInit_bool : ValueInit bool := false.
#[export] Instance ValueInit_ptr : ValueInit (option Z) := None.

Definition nullReturnFunction {T : Type} `{ValueInit T} : T := value_init.

(** ** The union [DataPtr] (lines 155-162) *)

Inductive DataPtr : Type :=
  | DataPtr_v (p : VoidPtr)          (* DataPtr(void* p) : v_ptr(p) *)
  | DataPtr_fkn (p : TargetFreeCB).  (* DataPtr(TargetFreeCB p) : fkn_ptr(p) *)

(** [constexpr DataPtr() = default;] with [void* v_ptr = nullptr]. *)
Definition DataPtr_default : DataPtr := DataPtr_v nullptr.

Definition v_ptr (d : DataPtr) : VoidPtr :=
  match d with DataPtr_v p => p | DataPtr_fkn p => p end.

Definition fkn_ptr (d : DataPtr) : TargetFreeCB :=
  match d with DataPtr_v p => p | DataPtr_fkn p => p end.

(** Assignment to one member: [u.v_ptr = p], [u.fkn_ptr = p]. *)
Definition assign_v_ptr (u : DataPtr) (p : VoidPtr) : DataPtr := DataPtr_v p.
Definition assign_fkn_ptr (u : DataPtr) (p : TargetFreeCB) : DataPtr :=
  DataPtr_fkn p.

#[export] Instance DataPtr_eq_dec : EqDecision DataPtr.
Proof. solve_decision. Defined.

(** ** Trampolines (lines 164-235)

    [Trampoline] is a pointer to a function [R(DataPtr const&, Args...)].
    One constructor per
    adapter template, carrying the template arguments; [userCB] stands for a
    function of that shape written by the caller and handed to
    [makeVoidCB]. *)

Inductive Trampoline : Type :=
  | doNullFkn
  | doFreeCB (freeFkn : TargetFreeCB)
  | doMemberCB (T : ClassName) (memFkn : MemberName)
  | doConstMemberCB (T : ClassName) (memFkn : MemberName)
  | doFunctor (Functor : ClassName)
  | doConstFunctor (Functor : ClassName)
  | doRuntimeFkn
  | dofreeFknWithObjectRef (T : ClassName) (freeFkn : Z)
  | dofreeFknWithObjectConstRef (T : ClassName) (freeFkn : Z)
  | userCB (fkn : Z).

#[export] Instance Trampoline_eq_dec : EqDecision Trampoline.
Proof. solve_decision. Defined.

(** ** The class [delegate<R(Args...)>] (lines 683-684) *)

Record delegate : Type := mk_delegate {
  m_cb : Trampoline;
  m_ptr : DataPtr
}.

#[export] Instance delegate_eq_dec : EqDecision delegate.
Proof. solve_decision. Defined.

(** ** The class [MemFkn<Del, cnst>] (lines 101-135) *)

Record MemFkn (cnst : bool) : Type := mk_MemFkn {
  trampoline : Trampoline
}.
Arguments mk_MemFkn {cnst} _.
Arguments trampoline {cnst} _.

(** [explicit constexpr MemFkn() = default;] with
    [trampoline = Del::doNullFkn]. *)
Definition MemFkn_default {cnst : bool} : MemFkn cnst := mk_MemFkn doNullFkn.

Module MemFknOps.

Definition null {cnst} (f : MemFkn cnst) : bool :=
  bool_decide (trampoline f = doNullFkn).

Definition equal {cnst} (lhs rhs : MemFkn cnst) : bool :=
  bool_decide (trampoline lhs = trampoline rhs).

Definition less (addr : Trampoline -> Z) {cnst} (lhs rhs : MemFkn cnst)
  : bool :=
  (null lhs && negb (null rhs))
  || (addr (trampoline lhs) <? addr (trampoline rhs)).

Definition to_bool {cnst} (f : MemFkn cnst) : bool := negb (null f).

End MemFknOps.

(** ** Construction, tests and comparison of delegates *)

(** [constexpr delegate(const std::nullptr_t& nptr = nullptr)] (line 239):
    [m_cb(&doNullFkn)], and [m_ptr] takes its default member initialiser. *)
Definition delegate_default : delegate :=
  {| m_cb := doNullFkn; m_ptr := DataPtr_default |}.

(** What instantiating a member of the class template gives: a value when
    the instantiation is well-formed, nothing when the program that needs
    it is rejected by the compiler. *)
Inductive Instantiation (A : Type) : Type :=
  | well_formed (a : A)
  | ill_formed.
Arguments well_formed {A} _.
Arguments ill_formed {A}.

(** The initialisation [m_ptr(ptr)] with [ptr] of type [const void*]
    (line 674).  The constructors of [DataPtr] (lines 156-158) take no
    argument, a [void*] or a [TargetFreeCB], and there are the implicit
    copy and move constructors; a [const void*] converts to none of
    [void*], [TargetFreeCB] and [DataPtr], so no constructor is viable. *)
Definition DataPtr_of_const_void (p : VoidPtr) : Instantiation DataPtr :=
  ill_formed.

(** The three private constructors (lines 668-681).  The second one
    initialises [m_ptr] from a [const void*]. *)
Definition delegate_of_void (cb : Trampoline) (ptr : VoidPtr) : delegate :=
  {| m_cb := cb; m_ptr := DataPtr_v ptr |}.
Definition delegate_of_const_void (cb : Trampoline) (ptr : VoidPtr)
  : Instantiation delegate :=
  match DataPtr_of_const_void ptr with
  | well_formed u => well_formed {| m_cb := cb; m_ptr := u |}
  | ill_formed => ill_formed
  end.
Definition delegate_of_fkn (cb : Trampoline) (fkn : TargetFreeCB)
  : delegate :=
  {| m_cb := cb; m_ptr := DataPtr_fkn fkn |}.

(** [null()] (lines 251-254). *)
Definition null (d : delegate) : bool := bool_decide (m_cb d = doNullFkn).

(** [explicit operator bool()] (lines 314-317). *)
Definition to_bool (d : delegate) : bool := negb (null d).

(** [static equal(lhs, rhs)] (lines 256-265). *)
Definition equal (lhs rhs : delegate) : bool :=
  bool_decide (m_cb lhs = m_cb rhs)
  && (if bool_decide (m_cb lhs = doRuntimeFkn)
      then fkn_ptr (m_ptr lhs) =? fkn_ptr (m_ptr rhs)
      else v_ptr (m_ptr lhs) =? v_ptr (m_ptr rhs)).

(** [struct Equal] (lines 273-280). *)
Definition Equal (lhs rhs : delegate) : bool := equal lhs rhs.

(** [static less(lhs, rhs)] (lines 285-296).  [addr] gives the address of
    each adapter function in the running program. *)
Definition less (addr : Trampoline -> Z) (lhs rhs : delegate) : bool :=
  (null lhs && negb (null rhs))
  || (addr (m_cb lhs) <? addr (m_cb rhs))
  || (bool_decide (m_cb lhs = m_cb rhs)
      && (if bool_decide (m_cb lhs = doRuntimeFkn)
          then fkn_ptr (m_ptr lhs) <? fkn_ptr (m_ptr rhs)
          else v_ptr (m_ptr lhs) <? v_ptr (m_ptr rhs))).

(** [struct Less] (lines 304-311). *)
Definition Less (addr : Trampoline -> Z) (lhs rhs : delegate) : bool :=
  less addr lhs rhs.

(** The free operators (lines 687-730). *)
Definition op_eq (lhs rhs : delegate) : bool := equal lhs rhs.
Definition op_ne (lhs rhs : delegate) : bool := negb (op_eq lhs rhs).
Definition op_eq_nullptr_l (rhs : delegate) : bool := null rhs.
Definition op_ne_nullptr_l (rhs : delegate) : bool :=
  negb (op_eq_nullptr_l rhs).
Definition op_eq_nullptr_r (lhs : delegate) : bool := null lhs.
Definition op_ne_nullptr_r (lhs : delegate) : bool :=
  negb (op_eq_nullptr_r lhs).

(** ** Mutators: each takes the delegate it is called on and returns its
    new value *)

(** [clear()] (lines 319-323). *)
Definition clear (this : delegate) : delegate :=
  {| m_cb := doNullFkn; m_ptr := assign_v_ptr (m_ptr this) nullptr |}.

(** [fkn ? a : b] on a function pointer. *)
Definition fkn_nonnull (fkn : TargetFreeCB) : bool := negb (fkn =? nullptr).

(** [set<fkn>()] (lines 329-335). *)
Definition set_free (fkn : TargetFreeCB) (this : delegate) : delegate :=
  {| m_cb := if fkn_nonnull fkn then doFreeCB fkn else doNullFkn;
     m_ptr := assign_v_ptr (m_ptr this) nullptr |}.

(** [set<T, memFkn>(T& tr)] (lines 340-346). *)
Definition set_member (T : ClassName) (memFkn : MemberName) (tr : VoidPtr)
  (this : delegate) : delegate :=
  {| m_cb := doMemberCB T memFkn; m_ptr := assign_v_ptr (m_ptr this) tr |}.

(** [set<T, memFkn>(T const& tr)], const member (lines 348-354). *)
Definition set_const_member (T : ClassName) (memFkn : MemberName)
  (tr : VoidPtr) (this : delegate) : delegate :=
  {| m_cb := doConstMemberCB T memFkn;
     m_ptr := assign_v_ptr (m_ptr this) tr |}.

(** [set<T>(T& tr)], functor (lines 369-375). *)
Definition set_functor (T : ClassName) (tr : VoidPtr) (this : delegate)
  : delegate :=
  {| m_cb := doFunctor T; m_ptr := assign_v_ptr (m_ptr this) tr |}.

(** [set<T>(T const& tr)], functor (lines 377-383). *)
Definition set_const_functor (T : ClassName) (tr : VoidPtr)
  (this : delegate) : delegate :=
  {| m_cb := doConstFunctor T; m_ptr := assign_v_ptr (m_ptr this) tr |}.

(** [set(TargetFreeCB fkn)] (lines 389-394). *)
Definition set_runtime (fkn : TargetFreeCB) (this : delegate) : delegate :=
  {| m_cb := doRuntimeFkn; m_ptr := assign_fkn_ptr (m_ptr this) fkn |}.

(** [set_fkn(TargetFreeCB fkn)] (lines 396-399). *)
Definition set_fkn (fkn : TargetFreeCB) (this : delegate) : delegate :=
  set_runtime fkn this.

(** [set(MemFkn<delegate, false> f, T& o)] (lines 525-532). *)
Definition set_MemFkn (f : MemFkn false) (o : VoidPtr) (this : delegate)
  : delegate :=
  {| m_cb := trampoline f; m_ptr := DataPtr_v o |}.

(** [set(MemFkn<delegate, true> f, T const& o)] (lines 533-540). *)
Definition set_MemFkn_const (f : MemFkn true) (o : VoidPtr)
  (this : delegate) : delegate :=
  {| m_cb := trampoline f; m_ptr := DataPtr_v o |}.

(** [set(MemFkn<delegate, true> f, T& o)] (lines 541-546). *)
Definition set_MemFkn_const_obj (f : MemFkn true) (o : VoidPtr)
  (this : delegate) : delegate :=
  set_MemFkn_const f o this.

(** ** Factories *)

(** [make<fkn>()] (lines 405-410). *)
Definition make_free (fkn : TargetFreeCB) : delegate :=
  delegate_of_void (if fkn_nonnull fkn then doFreeCB fkn else doNullFkn)
    nullptr.

(** [make<T, memFkn>(T& o)] (lines 415-419). *)
Definition make_member (T : ClassName) (memFkn : MemberName) (o : VoidPtr)
  : delegate :=
  delegate_of_void (doMemberCB T memFkn) o.

(** [make<T, memFkn>(const T& o)], const member (lines 421-426). *)
Definition make_const_member (T : ClassName) (memFkn : MemberName)
  (o : VoidPtr) : delegate :=
  delegate_of_void (doConstMemberCB T memFkn) o.

(** [make<T>(T& o)], functor (lines 434-438). *)
Definition make_functor (T : ClassName) (o : VoidPtr) : delegate :=
  delegate_of_void (doFunctor T) o.

(** [make<T>(T const& o)], functor (lines 439-444). *)
Definition make_const_functor (T : ClassName) (o : VoidPtr) : delegate :=
  delegate_of_void (doConstFunctor T) o.

(** [make(TargetFreeCB fkn)] (lines 448-451). *)
Definition make_runtime (fkn : TargetFreeCB) : delegate :=
  delegate_of_fkn doRuntimeFkn fkn.

(** [make_fkn(TargetFreeCB fkn)] (lines 453-456). *)
Definition make_fkn (fkn : TargetFreeCB) : delegate :=
  delegate_of_fkn doRuntimeFkn fkn.

(** [make<T, fkn>(T& o)] with [fkn] taking [T&] first (lines 464-469). *)
Definition make_ctx (T : ClassName) (fkn : Z) (o : VoidPtr) : delegate :=
  delegate_of_void (dofreeFknWithObjectRef T fkn) o.

(** [make<T, fkn>(T& o)] with [fkn] taking [T const&] first
    (lines 471-476): it hands [static_cast<void const*>(&o)] to the
    constructor that takes a [const void*]. *)
Definition make_ctx_const (T : ClassName) (fkn : Z) (o : VoidPtr)
  : Instantiation delegate :=
  delegate_of_const_void (dofreeFknWithObjectConstRef T fkn) o.

(** [makeVoidCB<fkn>(ptr)] and [makeVoidCB(fkn, ptr)] (lines 487-502). *)
Definition makeVoidCB (fkn : Trampoline) (ptr : VoidPtr) : delegate :=
  delegate_of_void fkn ptr.

(** [memFkn<T, memFkn_>()] for a const member (lines 510-514) and for a
    non-const member (lines 516-520). *)
Definition memFkn_const (T : ClassName) (memFkn_ : MemberName)
  : MemFkn true :=
  mk_MemFkn (doConstMemberCB T memFkn_).
Definition memFkn (T : ClassName) (memFkn_ : MemberName) : MemFkn false :=
  mk_MemFkn (doMemberCB T memFkn_).

(** [make(MemFkn<delegate, false> f, T& o)] (lines 555-559). *)
Definition make_MemFkn (f : MemFkn false) (o : VoidPtr) : delegate :=
  delegate_of_void (trampoline f) o.

(** [make(MemFkn<delegate, true> f, T const& o)] (lines 563-569). *)
Definition make_MemFkn_const (f : MemFkn true) (o : VoidPtr) : delegate :=
  delegate_of_void (trampoline f) o.

(** [make(MemFkn<delegate, true> f, T& o)] (lines 570-574). *)
Definition make_MemFkn_const_obj (f : MemFkn true) (o : VoidPtr)
  : delegate :=
  delegate_of_void (trampoline f) o.

(** ** The C++17 overloads on [template <auto mFkn>] (lines 581-663) *)

(** A pointer to member function together with its type: a non-const or a
    const member of class [T]. *)
Inductive MemberFknPtr : Type :=
  | mfp (T : ClassName) (mf : MemberName)
  | mfp_const (T : ClassName) (mf : MemberName).

(** [struct DeduceMemberType] and its two specialisations. *)
Module DeduceMemberType.

Definition cnst (mFkn : MemberFknPtr) : bool :=
  match mFkn with mfp _ _ => false | mfp_const _ _ => true end.

Definition trampoline (mFkn : MemberFknPtr) : Trampoline :=
  match mFkn with
  | mfp T mf => doMemberCB T mf
  | mfp_const T mf => doConstMemberCB T mf
  end.

Definition castPtr (mFkn : MemberFknPtr) (obj : VoidPtr) : VoidPtr := obj.

End DeduceMemberType.

(** [set<mFkn>(obj)], both overloads (lines 612-630). *)
Definition set_auto (mFkn : MemberFknPtr) (obj : VoidPtr) (this : delegate)
  : delegate :=
  {| m_cb := DeduceMemberType.trampoline mFkn;
     m_ptr := DataPtr_v (DeduceMemberType.castPtr mFkn obj) |}.

(** [make<mFkn>(obj)], both overloads (lines 636-650). *)
Definition make_auto (mFkn : MemberFknPtr) (obj : VoidPtr) : delegate :=
  delegate_of_void (DeduceMemberType.trampoline mFkn)
    (DeduceMemberType.castPtr mFkn obj).

(** [memFkn<mFkn>()] (lines 658-663). *)
Definition memFkn_auto (mFkn : MemberFknPtr)
  : MemFkn (DeduceMemberType.cnst mFkn) :=
  mk_MemFkn (DeduceMemberType.trampoline mFkn).

(** ** Calls: the state-and-failure monad *)

Definition M (Mem A : Type) : Type := Mem -> option (A * Mem).

Definition ret {Mem A : Type} (a : A) : M Mem A := fun mem => Some (a, mem).

Definition undefined_behaviour {Mem A : Type} : M Mem A := fun _ => None.

Definition bind {Mem A B : Type} (c : M Mem A) (k : A -> M Mem B) : M Mem B :=
  fun mem => match c mem with
             | Some (a, mem') => k a mem'
             | None => None
             end.

(** The functions of the program a delegate can be bound to.  Each field
    gives the behaviour of a call: of the free function at an address, of a
    member function on the object at an address, of the call operator of a
    function object, of a free function taking the object first, and of a
    trampoline written by the caller. *)
Record Program (R Args Mem : Type) : Type := mk_Program {
  fkn_at : TargetFreeCB -> Args -> M Mem R;
  member_fkn : ClassName -> MemberName -> VoidPtr -> Args -> M Mem R;
  const_member_fkn : ClassName -> MemberName -> VoidPtr -> Args -> M Mem R;
  functor_call : ClassName -> VoidPtr -> Args -> M Mem R;
  const_functor_call : ClassName -> VoidPtr -> Args -> M Mem R;
  ctx_fkn_at : ClassName -> Z -> VoidPtr -> Args -> M Mem R;
  const_ctx_fkn_at : ClassName -> Z -> VoidPtr -> Args -> M Mem R;
  user_cb : Z -> DataPtr -> Args -> M Mem R
}.
Arguments fkn_at {R Args Mem} _ _ _.
Arguments member_fkn {R Args Mem} _ _ _ _ _.
Arguments const_member_fkn {R Args Mem} _ _ _ _ _.
Arguments functor_call {R Args Mem} _ _ _ _.
Arguments const_functor_call {R Args Mem} _ _ _ _.
Arguments ctx_fkn_at {R Args Mem} _ _ _ _ _.
Arguments const_ctx_fkn_at {R Args Mem} _ _ _ _ _.
Arguments user_cb {R Args Mem} _ _ _ _.

Section Dispatch.

Context {R Args Mem : Type} `{!ValueInit R}.
Variable P : Program R Args Mem.

(** A call [fkn(args...)] through a pointer to a free function. *)
Definition call_fkn (fkn : TargetFreeCB) (args : Args) : M Mem R :=
  if fkn_nonnull fkn then fkn_at P fkn args else undefined_behaviour.

(** A call [fkn(obj, args...)] through a pointer to a free function that
    takes the object by reference, and by const reference. *)
Definition call_ctx (T : ClassName) (fkn : Z) (obj : VoidPtr) (args : Args)
  : M Mem R :=
  if fkn_nonnull fkn then ctx_fkn_at P T fkn obj args
  else undefined_behaviour.

Definition call_const_ctx (T : ClassName) (fkn : Z) (obj : VoidPtr)
  (args : Args) : M Mem R :=
  if fkn_nonnull fkn then const_ctx_fkn_at P T fkn obj args
  else undefined_behaviour.

(** The bodies of the adapters (lines 168-235). *)
Definition run_doNullFkn (v : DataPtr) (args : Args) : M Mem R :=
  ret nullReturnFunction.

Definition run_doFreeCB (freeFkn : TargetFreeCB) (v : DataPtr) (args : Args)
  : M Mem R :=
  call_fkn freeFkn args.

Definition run_doMemberCB (T : ClassName) (memFkn : MemberName)
  (o : DataPtr) (args : Args) : M Mem R :=
  let obj := v_ptr o in member_fkn P T memFkn obj args.

Definition run_doConstMemberCB (T : ClassName) (memFkn : MemberName)
  (o : DataPtr) (args : Args) : M Mem R :=
  let obj := v_ptr o in const_member_fkn P T memFkn obj args.

Definition run_doFunctor (Functor : ClassName) (o_arg : DataPtr)
  (args : Args) : M Mem R :=
  let obj := v_ptr o_arg in functor_call P Functor obj args.

Definition run_doConstFunctor (Functor : ClassName) (o_arg : DataPtr)
  (args : Args) : M Mem R :=
  let obj := v_ptr o_arg in const_functor_call P Functor obj args.

Definition run_doRuntimeFkn (o_arg : DataPtr) (args : Args) : M Mem R :=
  let fkn := fkn_ptr o_arg in call_fkn fkn args.

Definition run_dofreeFknWithObjectRef (T : ClassName) (freeFkn : Z)
  (o : DataPtr) (args : Args) : M Mem R :=
  let obj := v_ptr o in call_ctx T freeFkn obj args.

Definition run_dofreeFknWithObjectConstRef (T : ClassName) (freeFkn : Z)
  (o : DataPtr) (args : Args) : M Mem R :=
  let obj := v_ptr o in call_const_ctx T freeFkn obj args.

(** A call through a trampoline pointer. *)
Definition run (cb : Trampoline) : DataPtr -> Args -> M Mem R :=
  match cb with
  | doNullFkn => run_doNullFkn
  | doFreeCB freeFkn => run_doFreeCB freeFkn
  | doMemberCB T memFkn => run_doMemberCB T memFkn
  | doConstMemberCB T memFkn => run_doConstMemberCB T memFkn
  | doFunctor Functor => run_doFunctor Functor
  | doConstFunctor Functor => run_doConstFunctor Functor
  | doRuntimeFkn => run_doRuntimeFkn
  | dofreeFknWithObjectRef T freeFkn => run_dofreeFknWithObjectRef T freeFkn
  | dofreeFknWithObjectConstRef T freeFkn =>
      run_dofreeFknWithObjectConstRef T freeFkn
  | userCB fkn => user_cb P fkn
  end.

(** [operator()(Args... args)] (lines 246-249). *)
Definition operator_call (d : delegate) (args : Args) : M Mem R :=
  run (m_cb d) (m_ptr d) args.

End Dispatch.

(** ** Delegate variables

    A program keeps its delegates in named variables.  Copy construction and
    assignment copy the two members; a mutator changes the variable it is
    called on. *)

Inductive Mutator : Type :=
  | Clear
  | SetFree (fkn : TargetFreeCB)
  | SetMember (T : ClassName) (memFkn : MemberName) (tr : VoidPtr)
  | SetConstMember (T : ClassName) (memFkn : MemberName) (tr : VoidPtr)
  | SetFunctor (T : ClassName) (tr : VoidPtr)
  | SetConstFunctor (T : ClassName) (tr : VoidPtr)
  | SetRuntime (fkn : TargetFreeCB)
  | SetFkn (fkn : TargetFreeCB)
  | SetMemFkn (f : MemFkn false) (o : VoidPtr)
  | SetMemFknConst (f : MemFkn true) (o : VoidPtr)
  | SetMemFknConstObj (f : MemFkn true) (o : VoidPtr)
  | SetAuto (mFkn : MemberFknPtr) (obj : VoidPtr)
  | Assign (rhs : delegate).

Definition apply_mutator (m : Mutator) (this : delegate) : delegate :=
  match m with
  | Clear => clear this
  | SetFree fkn => set_free fkn this
  | SetMember T memFkn tr => set_member T memFkn tr this
  | SetConstMember T memFkn tr => set_const_member T memFkn tr this
  | SetFunctor T tr => set_functor T tr this
  | SetConstFunctor T tr => set_const_functor T tr this
  | SetRuntime fkn => set_runtime fkn this
  | SetFkn fkn => set_fkn fkn this
  | SetMemFkn f o => set_MemFkn f o this
  | SetMemFknConst f o => set_MemFkn_const f o this
  | SetMemFknConstObj f o => set_MemFkn_const_obj f o this
  | SetAuto mFkn obj => set_auto mFkn obj this
  | Assign rhs => rhs
  end.

(** [x.m(...)]: fails when no variable [x] is in scope. *)
Definition mutate (x : string) (m : Mutator) (vars : gmap string delegate)
  : option (gmap string delegate) :=
  match vars !! x with
  | Some this => Some (<[x := apply_mutator m this]> vars)
  | None => None
  end.

(** [delegate c = x;]: declares [c] as a copy of [x]. *)
Definition copy (c x : string) (vars : gmap string delegate)
  : option (gmap string delegate) :=
  match vars !! x with
  | Some v => Some (<[c := v]> vars)
  | None => None
  end.

(** Several statements in a row, each a mutator call on some variable. *)
Fixpoint mutate_all (calls : list (string * Mutator))
  (vars : gmap string delegate) : option (gmap string delegate) :=
  match calls with
  | [] => Some vars
  | (x, m) :: rest =>
      match mutate x m vars with
      | Some vars' => mutate_all rest vars'
      | None => None
      end
  end.

(** ** Which union member a delegate holds

    The member of [m_ptr] that was written last is the one [equal], [less]
    and the adapters read: [fkn_ptr] under [doRuntimeFkn], [v_ptr] under
    every other adapter. *)
Definition active_member_ok (d : delegate) : bool :=
  match m_cb d, m_ptr d with
  | doRuntimeFkn, DataPtr_fkn _ => true
  | doRuntimeFkn, DataPtr_v _ => false
  | _, DataPtr_v _ => true
  | _, DataPtr_fkn _ => false
  end.

(** The mutator calls a program can write: the handle of a [MemFkn] call
    never holds [doRuntimeFkn], a private name of [delegate], and an
    assigned value holds the member its adapter reads. *)
Definition mutator_ok (m : Mutator) : bool :=
  match m with
  | SetMemFkn f _ => negb (bool_decide (trampoline f = doRuntimeFkn))
  | SetMemFknConst f _ | SetMemFknConstObj f _ =>
      negb (bool_decide (trampoline f = doRuntimeFkn))
  | Assign rhs => active_member_ok rhs
  | _ => true
  end.

(** The delegates the public interface gives: the default constructor and
    the factories.  Every [set] gives what the matching [make] gives, a
    handle holds the adapter of a member binding or the null adapter, and
    [makeVoidCB] takes a trampoline written by the caller, the adapters
    being private names of the class. *)
Inductive constructible : delegate -> Prop :=
  | constructible_default : constructible delegate_default
  | constructible_free fkn : constructible (make_free fkn)
  | constructible_member T m o : constructible (make_member T m o)
  | constructible_const_member T m o :
      constructible (make_const_member T m o)
  | constructible_functor T o : constructible (make_functor T o)
  | constructible_const_functor T o :
      constructible (make_const_functor T o)
  | constructible_runtime fkn : constructible (make_runtime fkn)
  | constructible_ctx T fkn o : constructible (make_ctx T fkn o)
  | constructible_null_handle o :
      constructible (make_MemFkn MemFkn_default o)
  | constructible_VoidCB fkn ptr :
      constructible (makeVoidCB (userCB fkn) ptr).

(** ** Address layouts

    Distinct functions have distinct addresses.  A layout is an injective
    assignment of addresses to the adapters; the two below number the
    adapters through [encode] and differ in which singleton adapter comes
    first in memory. *)

Definition Trampoline_to_sum (t : Trampoline)
  : (unit + Z) + (string * string + string * string)
    + ((string + string) + (unit + string * Z))
    + (string * Z + Z) :=
  match t with
  | doNullFkn => inl (inl (inl (inl tt)))
  | doFreeCB f => inl (inl (inl (inr f)))
  | doMemberCB T m => inl (inl (inr (inl (T, m))))
  | doConstMemberCB T m => inl (inl (inr (inr (T, m))))
  | doFunctor F => inl (inr (inl (inl F)))
  | doConstFunctor F => inl (inr (inl (inr F)))
  | doRuntimeFkn => inl (inr (inr (inl tt)))
  | dofreeFknWithObjectRef T f => inl (inr (inr (inr (T, f))))
  | dofreeFknWithObjectConstRef T f => inr (inl (T, f))
  | userCB f => inr (inr f)
  end.

Definition Trampoline_of_sum
  (s : (unit + Z) + (string * string + string * string)
       + ((string + string) + (unit + string * Z))
       + (string * Z + Z)) : Trampoline :=
  match s with
  | inl (inl (inl (inl _))) => doNullFkn
  | inl (inl (inl (inr f))) => doFreeCB f
  | inl (inl (inr (inl (T, m)))) => doMemberCB T m
  | inl (inl (inr (inr (T, m)))) => doConstMemberCB T m
  | inl (inr (inl (inl F))) => doFunctor F
  | inl (inr (inl (inr F))) => doConstFunctor F
  | inl (inr (inr (inl _))) => doRuntimeFkn
  | inl (inr (inr (inr (T, f)))) => dofreeFknWithObjectRef T f
  | inr (inl (T, f)) => dofreeFknWithObjectConstRef T f
  | inr (inr f) => userCB f
  end.

#[export] Instance Trampoline_countable : Countable Trampoline.
Proof.
  apply (inj_countable' Trampoline_to_sum Trampoline_of_sum).
  intros []; reflexivity.
Defined.

(** [doNullFkn] is the lowest adapter in memory. *)
Definition layout_null_first (t : Trampoline) : Z :=
  match t with
  | doNullFkn => 16
  | _ => 32 + 16 * Z.pos (encode t)
  end.

(** [doRuntimeFkn] is the lowest adapter in memory, [doNullFkn] lies above
    it. *)
Definition layout_runtime_first (t : Trampoline) : Z :=
  match t with
  | doRuntimeFkn => 16
  | _ => 32 + 16 * Z.pos (encode t)
  end.

(** ** A small program to run the definitions on

    [delegate<int(int)>] over a memory of [int] cells.  [Counter] is a class
    with one [int] member, stored at the object's address. *)

Definition ex_Mem : Type := gmap Z Z.

Definition ex_load (p : Z) : M ex_Mem Z :=
  fun mem => match mem !! p with
             | Some v => Some (v, mem)
             | None => None
             end.

Definition ex_store (p v : Z) : M ex_Mem unit :=
  fun mem => match mem !! p with
             | Some _ => Some (tt, <[p := v]> mem)
             | None => None
             end.

(** [int twice(int a) { return 2 * a; }], at address [ex_twice]. *)
Definition ex_twice : TargetFreeCB := 4096.

(** [int Counter::add(int a) { n += a; return n; }] *)
Definition ex_Counter_add (this a : Z) : M ex_Mem Z :=
  bind (ex_load this) (fun n =>
  bind (ex_store this (n + a)) (fun _ => ret (n + a))).

(** [int Counter::peek(int a) const { return n + a; }] *)
Definition ex_Counter_peek (this a : Z) : M ex_Mem Z :=
  bind (ex_load this) (fun n => ret (n + a)).

(** [int bump(Counter& c, int a)] at address [ex_bump], and
    [int read(Counter const& c, int a)] at address [ex_read]. *)
Definition ex_bump : Z := 8192.
Definition ex_read : Z := 8208.

Definition ex_program : Program Z Z ex_Mem :=
  {| fkn_at := fun p a =>
       if p =? ex_twice then ret (2 * a) else undefined_behaviour;
     member_fkn := fun T m this a =>
       if bool_decide (T = "Counter" /\ m = "add")
       then ex_Counter_add this a else undefined_behaviour;
     const_member_fkn := fun T m this a =>
       if bool_decide (T = "Counter" /\ m = "peek")
       then ex_Counter_peek this a else undefined_behaviour;
     functor_call := fun T this a =>
       if bool_decide (T = "Counter")
       then ex_Counter_add this a else undefined_behaviour;
     const_functor_call := fun T this a =>
       if bool_decide (T = "Counter")
       then ex_Counter_peek this a else undefined_behaviour;
     ctx_fkn_at := fun T p c a =>
       if bool_decide (T = "Counter") && (p =? ex_bump)
       then ex_Counter_add c a else undefined_behaviour;
     const_ctx_fkn_at := fun T p c a =>
       if bool_decide (T = "Counter") && (p =? ex_read)
       then ex_Counter_peek c a else undefined_behaviour;
     user_cb := fun _ _ _ => undefined_behaviour |}.

(** Two [Counter] objects, at addresses 100 and 104, holding 7 and 9. *)
Definition ex_x : VoidPtr := 100.
Definition ex_y : VoidPtr := 104.
Definition ex_mem : ex_Mem := <[ex_x := 7]> (<[ex_y := 9]> ∅).

(** One delegate variable [d], bound to [Counter::add] on [ex_x]. *)
Definition ex_vars : gmap string delegate :=
  <["d" := make_member "Counter" "add" ex_x]> ∅.

(** * Properties *)

(** ** Null test and boolean conversion *)

Lemma null_true_iff (d : delegate) : null d = true <-> m_cb d = doNullFkn.
Proof. unfold null. apply bool_decide_eq_true. Qed.

Lemma null_false_iff (d : delegate) : null d = false <-> m_cb d <> doNullFkn.
Proof. unfold null. apply bool_decide_eq_false. Qed.

Lemma to_bool_negb_null (d : delegate) : to_bool d = negb (null d).
Proof. reflexivity. Qed.

Lemma fkn_nonnull_true_iff (fkn : TargetFreeCB) :
  fkn_nonnull fkn = true <-> fkn <> nullptr.
Proof.
  unfold fkn_nonnull. rewrite negb_true_iff. apply Z.eqb_neq.
Qed.

Lemma fkn_nonnull_nullptr : fkn_nonnull nullptr = false.
Proof. reflexivity. Qed.

(** ** Equality *)

Lemma equal_true_iff (lhs rhs : delegate) :
  equal lhs rhs = true <->
  m_cb lhs = m_cb rhs /\
  (m_cb lhs = doRuntimeFkn -> fkn_ptr (m_ptr lhs) = fkn_ptr (m_ptr rhs)) /\
  (m_cb lhs <> doRuntimeFkn -> v_ptr (m_ptr lhs) = v_ptr (m_ptr rhs)).
Proof.
  unfold equal. rewrite andb_true_iff, bool_decide_eq_true.
  case_bool_decide as Hrt; rewrite Z.eqb_eq; intuition congruence.
Qed.

Lemma equal_refl (d : delegate) : equal d d = true.
Proof. apply equal_true_iff. auto. Qed.

Lemma equal_sym (lhs rhs : delegate) : equal lhs rhs = equal rhs lhs.
Proof.
  apply eq_true_iff_eq. rewrite !equal_true_iff.
  split; intros (Hcb & Hf & Hv); (split; [congruence |]);
    split; intros H; symmetry; [apply Hf | apply Hv | apply Hf | apply Hv];
    congruence.
Qed.

(** On delegates whose union holds the member their adapter reads, [equal]
    is equality of the two stored words. *)
Lemma equal_true_iff_eq (lhs rhs : delegate) :
  active_member_ok lhs = true -> active_member_ok rhs = true ->
  (equal lhs rhs = true <-> lhs = rhs).
Proof.
  intros Hl Hr. split; [| intros ->; apply equal_refl].
  rewrite equal_true_iff. intros (Hcb & Hf & Hv).
  destruct lhs as [cb1 [p1 | p1]], rhs as [cb2 [p2 | p2]]; simpl in *;
    subst cb2; destruct cb1; simpl in *; try discriminate;
    f_equal; f_equal; first [apply Hf; reflexivity | apply Hv; discriminate].
Qed.

(** C2.  [equal(lhs, rhs)] is true exactly when both delegates store the
    same trampoline pointer and, for the adapter [doRuntimeFkn], the same
    function pointer [fkn_ptr], for any other adapter the same object
    pointer [v_ptr].  Two delegates bound to one member function on objects
    at different addresses select the same adapter and are not equal. *)
Theorem equal_same_adapter_and_payload :
  (forall lhs rhs : delegate,
     equal lhs rhs = true <->
     m_cb lhs = m_cb rhs /\
     (m_cb lhs = doRuntimeFkn ->
      fkn_ptr (m_ptr lhs) = fkn_ptr (m_ptr rhs)) /\
     (m_cb lhs <> doRuntimeFkn ->
      v_ptr (m_ptr lhs) = v_ptr (m_ptr rhs)))
  /\
  (forall (T : ClassName) (memFkn : MemberName) (x y : VoidPtr),
     x <> y ->
     m_cb (make_member T memFkn x) = m_cb (make_member T memFkn y) /\
     equal (make_member T memFkn x) (make_member T memFkn y) = false /\
     m_cb (make_const_member T memFkn x)
       = m_cb (make_const_member T memFkn y) /\
     equal (make_const_member T memFkn x) (make_const_member T memFkn y)
       = false /\
     (forall this1 this2 : delegate,
        equal (set_member T memFkn x this1) (set_member T memFkn y this2)
          = false /\
        equal (set_const_member T memFkn x this1)
              (set_const_member T memFkn y this2) = false)).
Proof.
  split; [exact equal_true_iff |].
  intros T memFkn x y Hxy.
  assert (Hne : (x =? y) = false) by (apply Z.eqb_neq; exact Hxy).
  unfold equal, make_member, make_const_member, set_member,
    set_const_member, delegate_of_void; simpl.
  rewrite !bool_decide_eq_true_2 by reflexivity. simpl. rewrite Hne.
  repeat split.
Qed.

(** The claim at two [Counter] objects. *)
Lemma equal_same_adapter_and_payload_witness :
  ex_x <> ex_y /\
  equal (make_member "Counter" "add" ex_x) (make_member "Counter" "add" ex_y)
    = false.
Proof.
  assert (Hxy : ex_x <> ex_y) by discriminate.
  split; [exact Hxy |].
  exact (proj1 (proj2
    (proj2 equal_same_adapter_and_payload "Counter" "add" ex_x ex_y Hxy))).
Defined.

(** ** Dispatch *)

Section DispatchFacts.

Context {R Args Mem : Type} `{!ValueInit R}.
Variable P : Program R Args Mem.

Lemma run_doNullFkn_returns (v : DataPtr) (args : Args) (mem : Mem) :
  run P doNullFkn v args mem = Some (value_init, mem).
Proof. reflexivity. Qed.

Lemma call_fkn_nullptr (args : Args) (mem : Mem) :
  call_fkn P nullptr args mem = None.
Proof. reflexivity. Qed.

Lemma call_fkn_nonnull (fkn : TargetFreeCB) (args : Args) :
  fkn <> nullptr -> call_fkn P fkn args = fkn_at P fkn args.
Proof.
  intros Hf. unfold call_fkn.
  rewrite (proj2 (fkn_nonnull_true_iff fkn) Hf). reflexivity.
Qed.

Lemma call_ctx_nonnull (T : ClassName) (fkn : Z) (o : VoidPtr)
  (args : Args) :
  fkn <> nullptr -> call_ctx P T fkn o args = ctx_fkn_at P T fkn o args.
Proof.
  intros Hf. unfold call_ctx.
  rewrite (proj2 (fkn_nonnull_true_iff fkn) Hf). reflexivity.
Qed.

Lemma call_const_ctx_nonnull (T : ClassName) (fkn : Z) (o : VoidPtr)
  (args : Args) :
  fkn <> nullptr ->
  call_const_ctx P T fkn o args = const_ctx_fkn_at P T fkn o args.
Proof.
  intros Hf. unfold call_const_ctx.
  rewrite (proj2 (fkn_nonnull_true_iff fkn) Hf). reflexivity.
Qed.

(** A call depends on the adapter and on the word stored in the union. *)
Lemma operator_call_ext (d1 d2 : delegate) (args : Args) :
  d1 = d2 -> operator_call P d1 args = operator_call P d2 args.
Proof. intros ->. reflexivity. Qed.

Lemma operator_call_null (d : delegate) (args : Args) (mem : Mem) :
  null d = true -> operator_call P d args mem = Some (value_init, mem).
Proof.
  intros Hn. apply null_true_iff in Hn.
  unfold operator_call. rewrite Hn. apply run_doNullFkn_returns.
Qed.

End DispatchFacts.

(** C3.  A call of a delegate whose dispatcher is the null adapter returns
    the value-initialised [R] and leaves the memory as it was, for every
    argument and in every memory, so it never fails; for [R = void] nothing
    is done at all.  The default-constructed delegate is such a delegate: it
    is null, converts to [false] and compares equal to [nullptr] on either
    side. *)
Theorem null_delegate_call_returns_default :
  forall (R Args Mem : Type) (VI : ValueInit R) (P : Program R Args Mem)
         (d : delegate) (args : Args) (mem : Mem),
    null d = true ->
    operator_call P d args mem = Some (value_init, mem) /\
    operator_call P delegate_default args mem = Some (value_init, mem) /\
    (forall (Pv : Program void Args Mem),
       operator_call Pv d args mem = Some (tt, mem) /\
       operator_call Pv delegate_default args mem = Some (tt, mem)) /\
    null delegate_default = true /\
    to_bool delegate_default = false /\
    op_eq_nullptr_r delegate_default = true /\
    op_eq_nullptr_l delegate_default = true /\
    op_ne_nullptr_r delegate_default = false /\
    op_ne_nullptr_l delegate_default = false.
Proof.
  intros R Args Mem VI P d args mem Hn.
  assert (Hd : null delegate_default = true) by reflexivity.
  split; [apply operator_call_null; exact Hn |].
  split; [apply operator_call_null; exact Hd |].
  split.
  - intros Pv. split.
    + apply (operator_call_null Pv d args mem Hn).
    + apply (operator_call_null Pv delegate_default args mem Hd).
  - repeat split.
Qed.

(** The claim on the cleared delegate of the example program: the call
    returns [int{}], which is 0, and the memory is unchanged. *)
Lemma null_delegate_call_returns_default_witness :
  null (clear (make_member "Counter" "add" ex_x)) = true /\
  operator_call ex_program (clear (make_member "Counter" "add" ex_x)) 5 ex_mem
    = Some (0, ex_mem).
Proof.
  assert (Hn : null (clear (make_member "Counter" "add" ex_x)) = true)
    by reflexivity.
  split; [exact Hn |].
  exact (proj1 (null_delegate_call_returns_default Z Z ex_Mem _ ex_program
                  (clear (make_member "Counter" "add" ex_x)) 5 ex_mem Hn)).
Defined.

(** C5.  A delegate bound to a non-null free function [f] through the
    compile-time path ([make<f>()], and likewise [set<f>()]) selects
    [doFreeCB<f>] with an empty data pointer, and a call with [a] is the
    call [f(a)]: same result, same effect on memory. *)
Theorem free_function_call_is_direct_call :
  forall (R Args Mem : Type) (VI : ValueInit R) (P : Program R Args Mem)
         (f : TargetFreeCB) (a : Args),
    f <> nullptr ->
    make_free f = {| m_cb := doFreeCB f; m_ptr := DataPtr_v nullptr |} /\
    operator_call P (make_free f) a = fkn_at P f a /\
    (forall this : delegate,
       set_free f this = make_free f /\
       operator_call P (set_free f this) a = fkn_at P f a).
Proof.
  intros R Args Mem VI P f a Hf.
  assert (Hmk : make_free f
                = {| m_cb := doFreeCB f; m_ptr := DataPtr_v nullptr |}).
  { unfold make_free, delegate_of_void.
    rewrite (proj2 (fkn_nonnull_true_iff f) Hf). reflexivity. }
  assert (Hcall : operator_call P (make_free f) a = fkn_at P f a).
  { rewrite Hmk. unfold operator_call; simpl. unfold run_doFreeCB.
    apply call_fkn_nonnull. exact Hf. }
  split; [exact Hmk |]. split; [exact Hcall |].
  intros this.
  assert (Hset : set_free f this = make_free f).
  { rewrite Hmk. unfold set_free, assign_v_ptr.
    rewrite (proj2 (fkn_nonnull_true_iff f) Hf). reflexivity. }
  split; [exact Hset |]. rewrite Hset. exact Hcall.
Qed.

(** The claim on [twice] of the example program: the call returns 42. *)
Lemma free_function_call_is_direct_call_witness :
  ex_twice <> nullptr /\
  operator_call ex_program (make_free ex_twice) 21 ex_mem
    = Some (42, ex_mem).
Proof.
  assert (Hf : ex_twice <> nullptr) by discriminate.
  split; [exact Hf |].
  rewrite (proj1 (proj2 (free_function_call_is_direct_call
                           Z Z ex_Mem _ ex_program ex_twice 21 Hf))).
  reflexivity.
Defined.

(** C6.  For [g] taking [T&], the delegate of [make<T, g>(o)]
    ([make_ctx]) stores the address of [o], and a call with [a] is the call
    [g(o, a)].  For [g] taking [T const&], [make<T, g>(o)]
    ([make_ctx_const]) is ill-formed for every [g] and [o]: there is no
    delegate of that binding to call.  The adapter it names,
    [dofreeFknWithObjectConstRef], would call [g(o, a)] on the address of
    [o], as the adapters of the other const bindings do on the address
    their [make] stores with [const_cast]. *)
Theorem context_function_binding_const_overload_ill_formed :
  forall (R Args Mem : Type) (VI : ValueInit R) (P : Program R Args Mem)
         (T : ClassName) (g : Z) (o : VoidPtr) (a : Args),
    g <> nullptr ->
    v_ptr (m_ptr (make_ctx T g o)) = o /\
    operator_call P (make_ctx T g o) a = call_ctx P T g o a /\
    operator_call P (make_ctx T g o) a = ctx_fkn_at P T g o a /\
    make_ctx_const T g o = ill_formed /\
    (forall d : delegate, make_ctx_const T g o <> well_formed d) /\
    run P (dofreeFknWithObjectConstRef T g) (DataPtr_v o) a
      = const_ctx_fkn_at P T g o a.
Proof.
  intros R Args Mem VI P T g o a Hg.
  split; [reflexivity |]. split; [reflexivity |].
  split.
  - unfold operator_call; simpl. unfold run_dofreeFknWithObjectRef; simpl.
    apply call_ctx_nonnull. exact Hg.
  - split; [reflexivity |]. split; [intros d; discriminate |].
    simpl. unfold run_dofreeFknWithObjectConstRef; simpl.
    apply call_const_ctx_nonnull. exact Hg.
Qed.

(** C6 on the example program.  With [bump] and the counter at [ex_x],
    which holds 7, the call with 5 returns 12 and stores 12 in the counter;
    the binding of [read], which takes [Counter const&], to the same
    counter is ill-formed. *)
Lemma context_function_binding_const_overload_ill_formed_witness :
  ex_bump <> nullptr /\ ex_read <> nullptr /\
  operator_call ex_program (make_ctx "Counter" ex_bump ex_x) 5 ex_mem
    = Some (12, <[ex_x := 12]> ex_mem) /\
  make_ctx_const "Counter" ex_read ex_x = ill_formed.
Proof.
  assert (Hg : ex_bump <> nullptr) by discriminate.
  assert (Hr : ex_read <> nullptr) by discriminate.
  split; [exact Hg |]. split; [exact Hr |]. split.
  - rewrite (proj1 (proj2 (proj2
               (context_function_binding_const_overload_ill_formed
                  Z Z ex_Mem _ ex_program "Counter" ex_bump ex_x 5 Hg)))).
    vm_compute. reflexivity.
  - exact (proj1 (proj2 (proj2 (proj2
             (context_function_binding_const_overload_ill_formed
                Z Z ex_Mem _ ex_program "Counter" ex_read ex_x 5 Hr))))).
Defined.

(** C7.  Two delegates bound through the runtime path to one
    function-pointer value are equal, whichever of [make], [make_fkn],
    [set] and [set_fkn] bound them.  A delegate bound to [f] through the
    runtime path is not equal to one bound to the same [f] through the
    compile-time path, in either order: the first selects [doRuntimeFkn],
    the second [doFreeCB<f>] or the null adapter. *)
Theorem runtime_binding_equality :
  (forall p : TargetFreeCB,
     equal (make_runtime p) (make_runtime p) = true /\
     equal (make_runtime p) (make_fkn p) = true /\
     (forall this1 this2 : delegate,
        equal (set_runtime p this1) (set_runtime p this2) = true /\
        equal (set_fkn p this1) (make_runtime p) = true /\
        equal (make_runtime p) (set_runtime p this2) = true))
  /\
  (forall f : TargetFreeCB,
     m_cb (make_runtime f) <> m_cb (make_free f) /\
     equal (make_runtime f) (make_free f) = false /\
     equal (make_free f) (make_runtime f) = false /\
     (forall this1 this2 : delegate,
        equal (set_runtime f this1) (set_free f this2) = false /\
        equal (set_free f this1) (set_runtime f this2) = false)).
Proof.
  split.
  - intros p.
    assert (Heq : forall d1 d2 : delegate,
               m_cb d1 = doRuntimeFkn -> m_cb d2 = doRuntimeFkn ->
               fkn_ptr (m_ptr d1) = p -> fkn_ptr (m_ptr d2) = p ->
               equal d1 d2 = true).
    { intros d1 d2 H1 H2 Hp1 Hp2. apply equal_true_iff.
      split; [congruence |]. split; [congruence |]. intros Hn. congruence. }
    split; [apply Heq; reflexivity |].
    split; [apply Heq; reflexivity |].
    intros this1 this2. repeat split; apply Heq; reflexivity.
  - intros f.
    assert (Hcb : forall d1 d2 : delegate,
               m_cb d1 = doRuntimeFkn ->
               m_cb d2 = (if fkn_nonnull f then doFreeCB f else doNullFkn) ->
               m_cb d1 <> m_cb d2).
    { intros d1 d2 H1 H2. rewrite H1, H2.
      destruct (fkn_nonnull f); discriminate. }
    assert (Hne : forall d1 d2 : delegate,
               m_cb d1 = doRuntimeFkn ->
               m_cb d2 = (if fkn_nonnull f then doFreeCB f else doNullFkn) ->
               equal d1 d2 = false /\ equal d2 d1 = false).
    { intros d1 d2 H1 H2. pose proof (Hcb d1 d2 H1 H2) as Hd.
      split; apply not_true_is_false; rewrite equal_true_iff;
        intros (He & _); congruence. }
    split; [apply Hcb; reflexivity |].
    split; [apply (Hne (make_runtime f) (make_free f)); reflexivity |].
    split; [apply (Hne (make_runtime f) (make_free f)); reflexivity |].
    intros this1 this2. split.
    + apply (Hne (set_runtime f this1) (set_free f this2)); reflexivity.
    + apply (Hne (set_runtime f this2) (set_free f this1)); reflexivity.
Qed.

(** C8.  Binding the null function pointer through the compile-time path
    selects the null adapter: [make<nullptr>()] is the default-constructed
    delegate, and [set<nullptr>()] turns any delegate into it.  The result
    is null, and a call of it is a call of the default-constructed
    delegate. *)
Theorem compile_time_null_function_gives_null_delegate :
  m_cb (make_free nullptr) = doNullFkn /\
  make_free nullptr = delegate_default /\
  null (make_free nullptr) = true /\
  (forall this : delegate,
     m_cb (set_free nullptr this) = doNullFkn /\
     set_free nullptr this = delegate_default /\
     null (set_free nullptr this) = true) /\
  (forall (R Args Mem : Type) (VI : ValueInit R) (P : Program R Args Mem)
          (this : delegate) (args : Args) (mem : Mem),
     operator_call P (make_free nullptr) args mem
       = operator_call P delegate_default args mem /\
     operator_call P (set_free nullptr this) args mem
       = operator_call P delegate_default args mem /\
     operator_call P (make_free nullptr) args mem = Some (value_init, mem)).
Proof.
  assert (Hmk : make_free nullptr = delegate_default) by reflexivity.
  assert (Hset : forall this, set_free nullptr this = delegate_default)
    by (intros this; reflexivity).
  split; [reflexivity |]. split; [exact Hmk |]. split; [reflexivity |].
  split.
  - intros this. rewrite Hset. repeat split.
  - intros R Args Mem VI P this args mem. rewrite Hmk, Hset.
    repeat split.
Qed.

(** C10.  Binding the null function pointer through the runtime path
    ([make], [make_fkn], [set], [set_fkn] on a function pointer) selects
    [doRuntimeFkn]: the delegate is not null and converts to [true].  A
    call of it is the call through the stored null pointer, with no test
    before it, which is undefined behaviour.  The compile-time path on the
    same null pointer gives a null delegate. *)
Theorem runtime_null_function_is_not_null_delegate :
  null (make_runtime nullptr) = false /\
  to_bool (make_runtime nullptr) = true /\
  null (make_fkn nullptr) = false /\
  to_bool (make_fkn nullptr) = true /\
  (forall this : delegate,
     null (set_runtime nullptr this) = false /\
     to_bool (set_runtime nullptr this) = true /\
     null (set_fkn nullptr this) = false /\
     to_bool (set_fkn nullptr this) = true) /\
  (forall (R Args Mem : Type) (VI : ValueInit R) (P : Program R Args Mem)
          (this : delegate) (args : Args) (mem : Mem),
     operator_call P (make_runtime nullptr) args
       = call_fkn P (fkn_ptr (m_ptr (make_runtime nullptr))) args /\
     fkn_ptr (m_ptr (make_runtime nullptr)) = nullptr /\
     operator_call P (make_runtime nullptr) args mem = None /\
     operator_call P (make_fkn nullptr) args mem = None /\
     operator_call P (set_runtime nullptr this) args mem = None /\
     operator_call P (set_fkn nullptr this) args mem = None) /\
  null (make_free nullptr) = true /\
  (forall this : delegate, null (set_free nullptr this) = true).
Proof.
  split; [reflexivity |]. split; [reflexivity |].
  split; [reflexivity |]. split; [reflexivity |].
  split; [intros this; repeat split |].
  split; [| split; [reflexivity | intros this; reflexivity]].
  intros R Args Mem VI P this args mem.
  split; [reflexivity |]. split; [reflexivity |].
  repeat split; apply (call_fkn_nullptr P args mem).
Qed.

(** ** Member-function handles *)

Lemma memFkn_trampoline (T : ClassName) (m : MemberName) :
  trampoline (memFkn T m) = doMemberCB T m.
Proof. reflexivity. Qed.

Lemma memFkn_const_trampoline (T : ClassName) (m : MemberName) :
  trampoline (memFkn_const T m) = doConstMemberCB T m.
Proof. reflexivity. Qed.

Lemma memFkn_auto_trampoline (mFkn : MemberFknPtr) :
  trampoline (memFkn_auto mFkn) = DeduceMemberType.trampoline mFkn.
Proof. reflexivity. Qed.

Lemma make_MemFkn_fields (f : MemFkn false) (o : VoidPtr) :
  m_cb (make_MemFkn f o) = trampoline f /\
  m_ptr (make_MemFkn f o) = DataPtr_v o.
Proof. split; reflexivity. Qed.

Lemma make_MemFkn_const_fields (f : MemFkn true) (o : VoidPtr) :
  m_cb (make_MemFkn_const f o) = trampoline f /\
  m_ptr (make_MemFkn_const f o) = DataPtr_v o /\
  make_MemFkn_const_obj f o = make_MemFkn_const f o.
Proof. repeat split. Qed.

(** C4.  A handle made by [memFkn] for member [m] of class [T], combined
    with the object at [x] by [make] or [set], gives the delegate that
    binding [m] and [x] directly gives: the same adapter and the same data
    pointer, so every call of one is the call of the other, which is the
    call of [m] on [x].  This holds for non-const members, for const
    members (on a const or a non-const object), and for the handles of
    [memFkn<mFkn>()]. *)
Theorem memfkn_binding_matches_direct_binding :
  forall (T : ClassName) (m : MemberName) (x : VoidPtr),
    make_MemFkn (memFkn T m) x = make_member T m x /\
    make_MemFkn_const (memFkn_const T m) x = make_const_member T m x /\
    make_MemFkn_const_obj (memFkn_const T m) x = make_const_member T m x /\
    make_MemFkn (memFkn_auto (mfp T m)) x = make_auto (mfp T m) x /\
    make_auto (mfp T m) x = make_member T m x /\
    make_MemFkn_const (memFkn_auto (mfp_const T m)) x
      = make_auto (mfp_const T m) x /\
    make_auto (mfp_const T m) x = make_const_member T m x /\
    (forall this : delegate,
       set_MemFkn (memFkn T m) x this = set_member T m x this /\
       set_MemFkn_const (memFkn_const T m) x this
         = set_const_member T m x this /\
       set_MemFkn_const_obj (memFkn_const T m) x this
         = set_const_member T m x this /\
       set_MemFkn (memFkn T m) x this = make_member T m x /\
       set_MemFkn_const (memFkn_const T m) x this
         = make_const_member T m x) /\
    (forall (R Args Mem : Type) (VI : ValueInit R) (P : Program R Args Mem)
            (this : delegate) (a : Args),
       operator_call P (make_MemFkn (memFkn T m) x) a
         = operator_call P (make_member T m x) a /\
       operator_call P (set_MemFkn (memFkn T m) x this) a
         = operator_call P (set_member T m x this) a /\
       operator_call P (make_MemFkn (memFkn T m) x) a
         = member_fkn P T m x a /\
       operator_call P (make_MemFkn_const (memFkn_const T m) x) a
         = operator_call P (make_const_member T m x) a /\
       operator_call P (make_MemFkn_const_obj (memFkn_const T m) x) a
         = operator_call P (make_const_member T m x) a /\
       operator_call P (set_MemFkn_const (memFkn_const T m) x this) a
         = operator_call P (set_const_member T m x this) a /\
       operator_call P (make_MemFkn_const (memFkn_const T m) x) a
         = const_member_fkn P T m x a).
Proof.
  intros T m x.
  assert (H1 : make_MemFkn (memFkn T m) x = make_member T m x).
  { unfold make_MemFkn, make_member. rewrite memFkn_trampoline.
    reflexivity. }
  assert (H2 : make_MemFkn_const (memFkn_const T m) x
               = make_const_member T m x).
  { unfold make_MemFkn_const, make_const_member.
    rewrite memFkn_const_trampoline. reflexivity. }
  assert (H3 : make_MemFkn_const_obj (memFkn_const T m) x
               = make_const_member T m x).
  { unfold make_MemFkn_const_obj, make_const_member.
    rewrite memFkn_const_trampoline. reflexivity. }
  assert (H4 : forall this,
             set_MemFkn (memFkn T m) x this = set_member T m x this).
  { intros this. unfold set_MemFkn, set_member, assign_v_ptr.
    rewrite memFkn_trampoline. reflexivity. }
  assert (H5 : forall this,
             set_MemFkn_const (memFkn_const T m) x this
             = set_const_member T m x this).
  { intros this. unfold set_MemFkn_const, set_const_member, assign_v_ptr.
    rewrite memFkn_const_trampoline. reflexivity. }
  split; [exact H1 |]. split; [exact H2 |]. split; [exact H3 |].
  split; [reflexivity |]. split; [reflexivity |].
  split; [reflexivity |]. split; [reflexivity |].
  split.
  - intros this. split; [apply H4 |]. split; [apply H5 |].
    split; [apply H5 |]. split; [rewrite H4 | rewrite H5]; reflexivity.
  - intros R Args Mem VI P this a.
    rewrite H1, H2, H3, H4, H5. repeat split.
Qed.

(** ** Value semantics *)

Lemma mutate_lookup_other (x c : string) (m : Mutator)
  (vars vars' : gmap string delegate) :
  x <> c -> mutate x m vars = Some vars' -> vars' !! c = vars !! c.
Proof.
  intros Hne. unfold mutate.
  destruct (vars !! x) as [this |] eqn:Hx; [| discriminate].
  intros [= <-]. apply lookup_insert_ne. exact Hne.
Qed.

Lemma mutate_lookup_same (x : string) (m : Mutator) (this : delegate)
  (vars : gmap string delegate) :
  vars !! x = Some this ->
  exists vars', mutate x m vars = Some vars' /\
                vars' !! x = Some (apply_mutator m this).
Proof.
  intros Hx. unfold mutate. rewrite Hx.
  eexists. split; [reflexivity |]. apply lookup_insert_eq.
Qed.

Lemma mutate_all_lookup_other (c : string) (calls : list (string * Mutator)) :
  forall vars vars' : gmap string delegate,
    Forall (fun xm => fst xm <> c) calls ->
    mutate_all calls vars = Some vars' -> vars' !! c = vars !! c.
Proof.
  induction calls as [| [x m] rest IH]; intros vars vars' Hall; simpl.
  - intros [= <-]. reflexivity.
  - apply Forall_cons in Hall as [Hx Hrest]; simpl in Hx.
    destruct (mutate x m vars) as [vars1 |] eqn:Hm; [| discriminate].
    intros Hrun. rewrite (IH vars1 vars' Hrest Hrun).
    apply (mutate_lookup_other x c m vars vars1 Hx Hm).
Qed.

(** C9.  Let [c] be declared as a copy of the delegate variable [d], whose
    value is [v].  The copy succeeds, every mutator call on [d] afterwards
    succeeds and gives [d] its new value, and [c] still holds [v]: the same
    adapter and data, equal to the original binding, and a call of [c] is a
    call of [v].  The same holds after any sequence of mutator calls on
    variables other than [c]. *)
Theorem copy_unchanged_by_rebinding_original :
  forall (vars : gmap string delegate) (d c : string) (v : delegate)
         (m : Mutator),
    c <> d ->
    vars !! d = Some v ->
    exists vars1 vars2 : gmap string delegate,
      copy c d vars = Some vars1 /\
      vars1 !! c = Some v /\
      mutate d m vars1 = Some vars2 /\
      vars2 !! d = Some (apply_mutator m v) /\
      vars2 !! c = Some v /\
      (forall cv : delegate,
         vars2 !! c = Some cv ->
         m_cb cv = m_cb v /\ m_ptr cv = m_ptr v /\
         equal cv v = true /\
         forall (R Args Mem : Type) (VI : ValueInit R)
                (P : Program R Args Mem) (args : Args),
           operator_call P cv args = operator_call P v args) /\
      (forall (calls : list (string * Mutator))
              (vars3 : gmap string delegate),
         Forall (fun xm => fst xm <> c) calls ->
         mutate_all calls vars1 = Some vars3 ->
         vars3 !! c = Some v).
Proof.
  intros vars d c v m Hcd Hd.
  assert (Hdc : d <> c) by congruence.
  set (vars1 := <[c := v]> vars).
  assert (Hcopy : copy c d vars = Some vars1)
    by (unfold copy; rewrite Hd; reflexivity).
  assert (Hc1 : vars1 !! c = Some v) by apply lookup_insert_eq.
  assert (Hd1 : vars1 !! d = Some v).
  { unfold vars1. rewrite lookup_insert_ne by exact Hcd. exact Hd. }
  destruct (mutate_lookup_same d m v vars1 Hd1) as (vars2 & Hmut & Hd2).
  assert (Hc2 : vars2 !! c = Some v).
  { rewrite (mutate_lookup_other d c m vars1 vars2 Hdc Hmut). exact Hc1. }
  exists vars1, vars2.
  split; [exact Hcopy |]. split; [exact Hc1 |]. split; [exact Hmut |].
  split; [exact Hd2 |]. split; [exact Hc2 |].
  split.
  - intros cv Hcv. rewrite Hc2 in Hcv. injection Hcv as <-.
    split; [reflexivity |]. split; [reflexivity |].
    split; [apply equal_refl | reflexivity].
  - intros calls vars3 Hall Hrun.
    rewrite (mutate_all_lookup_other c calls vars1 vars3 Hall Hrun).
    exact Hc1.
Qed.

(** The claim on the example variables: [c] copies [d], [d] is cleared,
    and [c] is still bound to [Counter::add] on [ex_x]. *)
Lemma copy_unchanged_by_rebinding_original_witness :
  "c" <> "d" /\
  ex_vars !! "d" = Some (make_member "Counter" "add" ex_x) /\
  exists vars1 vars2 : gmap string delegate,
    copy "c" "d" ex_vars = Some vars1 /\
    mutate "d" Clear vars1 = Some vars2 /\
    vars2 !! "d" = Some delegate_default /\
    vars2 !! "c" = Some (make_member "Counter" "add" ex_x).
Proof.
  assert (Hcd : "c" <> "d") by discriminate.
  assert (Hd : ex_vars !! "d" = Some (make_member "Counter" "add" ex_x))
    by reflexivity.
  split; [exact Hcd |]. split; [exact Hd |].
  destruct (copy_unchanged_by_rebinding_original ex_vars "d" "c"
              (make_member "Counter" "add" ex_x) Clear Hcd Hd)
    as (vars1 & vars2 & Hcopy & _ & Hmut & Hd2 & Hc2 & _).
  exists vars1, vars2.
  split; [exact Hcopy |]. split; [exact Hmut |].
  split; [exact Hd2 | exact Hc2].
Defined.

(** ** Ordering *)

Lemma fkn_ptr_is_v_ptr (u : DataPtr) : fkn_ptr u = v_ptr u.
Proof. destruct u; reflexivity. Qed.

Lemma less_true_iff (addr : Trampoline -> Z) (lhs rhs : delegate) :
  less addr lhs rhs = true <->
  (null lhs = true /\ null rhs = false) \/
  addr (m_cb lhs) < addr (m_cb rhs) \/
  (m_cb lhs = m_cb rhs /\ v_ptr (m_ptr lhs) < v_ptr (m_ptr rhs)).
Proof.
  unfold less.
  rewrite !orb_true_iff, !andb_true_iff, negb_true_iff, Z.ltb_lt,
    bool_decide_eq_true.
  rewrite !fkn_ptr_is_v_ptr.
  destruct (bool_decide (m_cb lhs = doRuntimeFkn)); rewrite Z.ltb_lt; tauto.
Qed.

Lemma less_irrefl (addr : Trampoline -> Z) (r : delegate) :
  less addr r r = false.
Proof.
  apply not_true_is_false. rewrite less_true_iff.
  intros [[Hn Hnn] | [Hlt | [_ Hlt]]]; [congruence | lia | lia].
Qed.

Lemma less_null_nonnull (addr : Trampoline -> Z) (n d : delegate) :
  null n = true -> null d = false -> less addr n d = true.
Proof. intros Hn Hd. apply less_true_iff. left. split; assumption. Qed.

(** What the code computes for a non-null delegate against a null one: the
    comparison of the two adapter addresses. *)
Lemma less_nonnull_null (addr : Trampoline -> Z) (n d : delegate) :
  null n = true -> null d = false ->
  less addr d n = (addr (m_cb d) <? addr doNullFkn).
Proof.
  intros Hn Hd. apply null_true_iff in Hn. pose proof Hd as Hd'.
  apply null_false_iff in Hd'.
  unfold less. rewrite Hd, Hn. simpl.
  rewrite (bool_decide_eq_false_2 (m_cb d = doNullFkn)) by exact Hd'.
  simpl. apply orb_false_r.
Qed.



Lemma layout_runtime_first_inj (a b : Trampoline) :
  layout_runtime_first a = layout_runtime_first b -> a = b.
Proof.
  unfold layout_runtime_first. intros H.
  assert (Hab : a = doRuntimeFkn /\ b = doRuntimeFkn \/ encode a = encode b).
  { destruct a, b; try (left; split; reflexivity); try (right; lia);
      exfalso; lia. }
  destruct Hab as [[-> ->] | He]; [reflexivity |].
  apply (inj encode). exact He.
Qed.

Lemma layout_runtime_first_below_null :
  layout_runtime_first doRuntimeFkn < layout_runtime_first doNullFkn.
Proof. unfold layout_runtime_first. lia. Qed.

(** C1.  The code of [less] evaluated where the adapter [doRuntimeFkn] lies
    below [doNullFkn] in memory ([layout_runtime_first], an injective
    assignment of addresses): for the null delegate [n = delegate{}] and
    the non-null [d = make(twice)], [less(n, d)] is true and [less(d, n)]
    is true as well, since [d.m_cb < n.m_cb] is tested without regard to
    [n] being null.  So on this run [less] is not antisymmetric, and not
    transitive either: [less(n, d)] and [less(d, n)] but not
    [less(n, n)]. *)
Theorem less_both_ways_when_null_adapter_not_lowest :
  (forall a b : Trampoline,
     layout_runtime_first a = layout_runtime_first b -> a = b) /\
  null delegate_default = true /\
  null (make_runtime ex_twice) = false /\
  less layout_runtime_first delegate_default (make_runtime ex_twice) = true /\
  less layout_runtime_first (make_runtime ex_twice) delegate_default = true /\
  less layout_runtime_first delegate_default delegate_default = false.
Proof.
  split; [exact layout_runtime_first_inj |].
  split; [reflexivity |]. split; [reflexivity |].
  split; [apply less_null_nonnull; reflexivity |].
  split; [| apply less_irrefl].
  rewrite (less_nonnull_null layout_runtime_first delegate_default
             (make_runtime ex_twice)) by reflexivity.
  apply Z.ltb_lt. exact layout_runtime_first_below_null.
Qed.

(** In general: [less] puts a non-null delegate before a null one, against
    the null-first rule, exactly when its adapter lies below [doNullFkn]. *)
Lemma less_nonnull_null_true_iff (addr : Trampoline -> Z) (n d : delegate) :
  null n = true -> null d = false ->
  (less addr d n = true <-> addr (m_cb d) < addr doNullFkn).
Proof.
  intros Hn Hd. rewrite (less_nonnull_null addr n d Hn Hd).
  apply Z.ltb_lt.
Qed.

(** Where [doNullFkn] is the lowest adapter in memory, [less] is the
    lexicographic order on adapter address and stored word, a strict total
    order that agrees with [equal] and puts null delegates first. *)
Section NullAdapterLowest.

Variable addr : Trampoline -> Z.
Hypothesis addr_inj : forall a b : Trampoline, addr a = addr b -> a = b.
Hypothesis addr_null_lowest : forall t : Trampoline,
  addr doNullFkn <= addr t.






End NullAdapterLowest.

(** ** The union holds the member its adapter reads *)

Lemma active_member_ok_v (cb : Trampoline) (p : VoidPtr) :
  cb <> doRuntimeFkn ->
  active_member_ok {| m_cb := cb; m_ptr := DataPtr_v p |} = true.
Proof. intros Hcb. destruct cb; try reflexivity. congruence. Qed.

Lemma active_member_ok_default : active_member_ok delegate_default = true.
Proof. reflexivity. Qed.

Lemma active_member_ok_make_free (fkn : TargetFreeCB) :
  active_member_ok (make_free fkn) = true.
Proof.
  unfold make_free, delegate_of_void. apply active_member_ok_v.
  destruct (fkn_nonnull fkn); discriminate.
Qed.

Lemma active_member_ok_make_runtime (fkn : TargetFreeCB) :
  active_member_ok (make_runtime fkn) = true /\
  active_member_ok (make_fkn fkn) = true.
Proof. split; reflexivity. Qed.

Lemma active_member_ok_make_object (T : ClassName) (m : MemberName)
  (g : Z) (o : VoidPtr) :
  active_member_ok (make_member T m o) = true /\
  active_member_ok (make_const_member T m o) = true /\
  active_member_ok (make_functor T o) = true /\
  active_member_ok (make_const_functor T o) = true /\
  active_member_ok (make_ctx T g o) = true /\
  active_member_ok (make_MemFkn (memFkn T m) o) = true /\
  active_member_ok (make_MemFkn_const (memFkn_const T m) o) = true /\
  active_member_ok (make_MemFkn MemFkn_default o) = true.
Proof. repeat split. Qed.

Lemma active_member_ok_apply_mutator (m : Mutator) (this : delegate) :
  mutator_ok m = true -> active_member_ok (apply_mutator m this) = true.
Proof.
  destruct m; simpl; intros Hm; try reflexivity; try exact Hm.
  - unfold set_free, assign_v_ptr. apply active_member_ok_v.
    destruct (fkn_nonnull fkn); discriminate.
  - apply negb_true_iff, bool_decide_eq_false in Hm.
    apply active_member_ok_v. exact Hm.
  - apply negb_true_iff, bool_decide_eq_false in Hm.
    apply active_member_ok_v. exact Hm.
  - apply negb_true_iff, bool_decide_eq_false in Hm.
    apply active_member_ok_v. exact Hm.
  - unfold set_auto. apply active_member_ok_v.
    destruct mFkn; discriminate.
Qed.

(** Every variable keeps the invariant along any run of permitted mutator
    calls. *)
Lemma active_member_ok_mutate_all (calls : list (string * Mutator)) :
  forall vars vars' : gmap string delegate,
    Forall (fun xm => mutator_ok (snd xm) = true) calls ->
    (forall x d, vars !! x = Some d -> active_member_ok d = true) ->
    mutate_all calls vars = Some vars' ->
    forall x d, vars' !! x = Some d -> active_member_ok d = true.
Proof.
  induction calls as [| [y m] rest IH]; intros vars vars' Hall Hinv; simpl.
  - intros [= <-]. exact Hinv.
  - apply Forall_cons in Hall as [Hm Hrest]; simpl in Hm.
    unfold mutate. destruct (vars !! y) as [this |] eqn:Hy; [| discriminate].
    apply IH; [exact Hrest |].
    intros x d. rewrite lookup_insert. case_decide as Hxy.
    + intros [= <-]. apply active_member_ok_apply_mutator. exact Hm.
    + apply Hinv.
Qed.

(** ** [clear] and null delegates *)

Lemma clear_is_default (this : delegate) : clear this = delegate_default.
Proof. reflexivity. Qed.

Lemma clear_null (this : delegate) :
  null (clear this) = true /\ to_bool (clear this) = false /\
  v_ptr (m_ptr (clear this)) = nullptr.
Proof. repeat split. Qed.

(** A default-constructed handle combined with an object gives a null
    delegate whose data pointer is the object: it compares equal to
    [nullptr], and is not [equal] to the default-constructed delegate. *)
Lemma null_handle_delegate (o : VoidPtr) :
  o <> nullptr ->
  null (make_MemFkn MemFkn_default o) = true /\
  op_eq_nullptr_r (make_MemFkn MemFkn_default o) = true /\
  equal (make_MemFkn MemFkn_default o) delegate_default = false.
Proof.
  intros Ho. split; [reflexivity |]. split; [reflexivity |].
  apply not_true_is_false. rewrite equal_true_iff. intros (_ & _ & Hv).
  apply Ho. apply Hv. discriminate.
Qed.

(** ** Handles *)

Lemma MemFkn_default_null (cnst : bool) :
  MemFknOps.null (@MemFkn_default cnst) = true /\
  MemFknOps.to_bool (@MemFkn_default cnst) = false.
Proof. split; reflexivity. Qed.

Lemma MemFkn_equal_true_iff (cnst : bool) (lhs rhs : MemFkn cnst) :
  MemFknOps.equal lhs rhs = true <-> lhs = rhs.
Proof.
  unfold MemFknOps.equal. rewrite bool_decide_eq_true.
  destruct lhs, rhs; simpl. split; congruence.
Qed.

Lemma memFkn_not_null (T : ClassName) (m : MemberName) :
  MemFknOps.null (memFkn T m) = false /\
  MemFknOps.null (memFkn_const T m) = false.
Proof. split; reflexivity. Qed.


(** * Further properties of the code *)

(** ** [less] as a sort key *)




(** X2.  On the delegates the public interface gives, [less] is
    asymmetric exactly when none of them stores an adapter that lies below
    [doNullFkn]. *)
Theorem less_asymmetric_iff_null_adapter_lowest :
  forall addr : Trampoline -> Z,
    (forall a b : delegate,
       constructible a -> constructible b ->
       less addr a b = true -> less addr b a = false) <->
    (forall d : delegate,
       constructible d -> addr doNullFkn <= addr (m_cb d)).
Proof.
  intros addr. split.
  - intros Hasym d Hd.
    destruct (Z.le_gt_cases (addr doNullFkn) (addr (m_cb d)))
      as [Hle | Hgt]; [exact Hle | exfalso].
    assert (Hnn : null d = false).
    { apply null_false_iff. intros He. rewrite He in Hgt. lia. }
    assert (Hn : null delegate_default = true) by reflexivity.
    pose proof (less_null_nonnull addr delegate_default d Hn Hnn) as Hnd.
    apply (Hasym _ _ constructible_default Hd) in Hnd.
    rewrite (less_nonnull_null addr delegate_default d Hn Hnn) in Hnd.
    apply Z.ltb_ge in Hnd. lia.
  - intros Hlow a b Ha Hb Hab.
    pose proof (Hlow a Ha) as Hla. pose proof (Hlow b Hb) as Hlb.
    apply not_true_is_false. intros Hba.
    apply less_true_iff in Hab. apply less_true_iff in Hba.
    assert (Hnull : forall d : delegate,
               null d = true -> addr (m_cb d) = addr doNullFkn).
    { intros d Hd. apply null_true_iff in Hd. rewrite Hd. reflexivity. }
    destruct Hab as [[Hna Hnb] | [Hlt | [Hcb Hw]]];
      destruct Hba as [[Hnb' Hna'] | [Hlt' | [Hcb' Hw']]];
      try congruence; try lia.
    + pose proof (Hnull a Hna). lia.
    + apply null_true_iff in Hna. apply null_false_iff in Hnb. congruence.
    + pose proof (Hnull b Hnb'). lia.
    + rewrite Hcb' in Hlt. lia.
    + apply null_true_iff in Hnb'. apply null_false_iff in Hna'.
      congruence.
    + rewrite Hcb in Hlt'. lia.
Qed.

(** X2 on the layout [layout_runtime_first], where the adapter of a
    runtime binding lies below [doNullFkn]: [less] is not asymmetric on
    the delegates the interface gives. *)
Lemma less_asymmetric_iff_null_adapter_lowest_witness :
  ~ (forall a b : delegate,
       constructible a -> constructible b ->
       less layout_runtime_first a b = true ->
       less layout_runtime_first b a = false).
Proof.
  intros Hasym.
  pose proof (proj1 (less_asymmetric_iff_null_adapter_lowest
                       layout_runtime_first)
                Hasym (make_runtime ex_twice)
                (constructible_runtime ex_twice)) as Hle.
  pose proof layout_runtime_first_below_null as Hlt.
  apply (Z.lt_irrefl (layout_runtime_first doRuntimeFkn)).
  eapply Z.lt_le_trans; [exact Hlt | exact Hle].
Defined.

(** X3.  [less] respects [equal] on every layout: two [equal] delegates
    compare alike against any third delegate, on either side. *)
Theorem less_respects_equal :
  forall (addr : Trampoline -> Z) (a b c : delegate),
    equal a b = true ->
    less addr a c = less addr b c /\ less addr c a = less addr c b.
Proof.
  intros addr a b c. rewrite equal_true_iff. change fkn_ptr with v_ptr.
  intros (Hcb & Hf & Hv).
  assert (Hw : v_ptr (m_ptr a) = v_ptr (m_ptr b)).
  { destruct (decide (m_cb a = doRuntimeFkn)) as [Hr | Hr]; auto. }
  unfold less, null. change fkn_ptr with v_ptr.
  rewrite Hcb, Hw. split; reflexivity.
Qed.

(** X3 on two runtime bindings of [twice], made by [make] and by [set]. *)
Lemma less_respects_equal_witness :
  less layout_null_first (make_runtime ex_twice) delegate_default
  = less layout_null_first (set_runtime ex_twice delegate_default)
      delegate_default.
Proof.
  assert (He : equal (make_runtime ex_twice)
                 (set_runtime ex_twice delegate_default) = true)
    by reflexivity.
  exact (proj1 (less_respects_equal layout_null_first
                  (make_runtime ex_twice)
                  (set_runtime ex_twice delegate_default)
                  delegate_default He)).
Defined.

(** X4.  On every layout, two delegates with the same adapter are ordered
    by their payload: bindings of one member function by the addresses of
    their objects, runtime bindings by their function pointers. *)
Theorem less_same_adapter_orders_by_payload :
  forall (addr : Trampoline -> Z),
    (forall (T : ClassName) (m : MemberName) (x y : VoidPtr),
       less addr (make_member T m x) (make_member T m y) = (x <? y) /\
       less addr (make_const_member T m x) (make_const_member T m y)
         = (x <? y) /\
       less addr (make_functor T x) (make_functor T y) = (x <? y)) /\
    (forall p q : TargetFreeCB,
       less addr (make_runtime p) (make_runtime q) = (p <? q)) /\
    (forall lhs rhs : delegate,
       m_cb lhs = m_cb rhs ->
       less addr lhs rhs = (v_ptr (m_ptr lhs) <? v_ptr (m_ptr rhs))).
Proof.
  intros addr.
  assert (Hsame : forall lhs rhs : delegate,
             m_cb lhs = m_cb rhs ->
             less addr lhs rhs = (v_ptr (m_ptr lhs) <? v_ptr (m_ptr rhs))).
  { intros lhs rhs Hcb. unfold less, null. change fkn_ptr with v_ptr.
    rewrite Hcb, Z.ltb_irrefl.
    rewrite (bool_decide_eq_true_2 (m_cb rhs = m_cb rhs)) by reflexivity.
    destruct (bool_decide (m_cb rhs = doNullFkn));
      destruct (bool_decide (m_cb rhs = doRuntimeFkn)); reflexivity. }
  split; [| split; [| exact Hsame]].
  - intros T m x y. repeat split; apply Hsame; reflexivity.
  - intros p q. apply Hsame. reflexivity.
Qed.

(** X4 on the two counters of the example. *)
Lemma less_same_adapter_orders_by_payload_witness :
  less layout_runtime_first (make_member "Counter" "add" ex_x)
    (make_member "Counter" "add" ex_y) = true.
Proof.
  assert (Hcb : m_cb (make_member "Counter" "add" ex_x)
                = m_cb (make_member "Counter" "add" ex_y)) by reflexivity.
  rewrite (proj2 (proj2 (less_same_adapter_orders_by_payload
                           layout_runtime_first)) _ _ Hcb).
  reflexivity.
Defined.

(** ** [equal] and the operators *)

Lemma equal_trans (a b c : delegate) :
  equal a b = true -> equal b c = true -> equal a c = true.
Proof.
  rewrite !equal_true_iff. change fkn_ptr with v_ptr.
  intros (Hab & Hfab & Hvab) (Hbc & Hfbc & Hvbc).
  split; [congruence |].
  destruct (decide (m_cb a = doRuntimeFkn)) as [Hr | Hr].
  - split; [intros _ | intros Hn; contradiction].
    rewrite (Hfab Hr). apply Hfbc. congruence.
  - split; [intros Hn; contradiction | intros _].
    rewrite (Hvab Hr). apply Hvbc. congruence.
Qed.

(** X5.  [equal] is an equivalence relation on delegates, [operator==] and
    [struct Equal] compute it, and [operator!=] is its negation. *)
Theorem equal_is_equivalence :
  (forall d : delegate, equal d d = true) /\
  (forall a b : delegate, equal a b = equal b a) /\
  (forall a b c : delegate,
     equal a b = true -> equal b c = true -> equal a c = true) /\
  (forall a b : delegate,
     op_eq a b = equal a b /\ Equal a b = equal a b /\
     op_ne a b = negb (equal a b) /\ op_ne a b = op_ne b a).
Proof.
  split; [exact equal_refl |]. split; [exact equal_sym |].
  split; [exact equal_trans |].
  intros a b. split; [reflexivity |]. split; [reflexivity |].
  split; [reflexivity |]. unfold op_ne, op_eq. rewrite (equal_sym a b).
  reflexivity.
Qed.

(** X5 on three bindings of [Counter::add] to the counter at [ex_x]. *)
Lemma equal_is_equivalence_witness :
  equal (make_member "Counter" "add" ex_x)
        (make_MemFkn (memFkn "Counter" "add") ex_x) = true.
Proof.
  assert (H1 : equal (make_member "Counter" "add" ex_x)
                 (set_member "Counter" "add" ex_x delegate_default) = true)
    by reflexivity.
  assert (H2 : equal (set_member "Counter" "add" ex_x delegate_default)
                 (make_MemFkn (memFkn "Counter" "add") ex_x) = true)
    by reflexivity.
  exact (proj1 (proj2 (proj2 equal_is_equivalence)) _ _ _ H1 H2).
Defined.

(** X6.  A delegate made from a handle and an object is null exactly when
    the handle is null.  With the default-constructed handle and an object
    at a non-null address it is a null delegate that carries the object's
    address: it compares equal to [nullptr], a call of it returns the
    value-initialised result, and it is not [equal] to the
    default-constructed delegate. *)
Theorem delegate_from_null_handle :
  forall (o : VoidPtr),
    o <> nullptr ->
    (forall f : MemFkn false,
       null (make_MemFkn f o) = MemFknOps.null f /\
       (forall this : delegate,
          null (set_MemFkn f o this) = MemFknOps.null f)) /\
    (forall f : MemFkn true,
       null (make_MemFkn_const f o) = MemFknOps.null f /\
       null (make_MemFkn_const_obj f o) = MemFknOps.null f /\
       (forall this : delegate,
          null (set_MemFkn_const f o this) = MemFknOps.null f)) /\
    null (make_MemFkn MemFkn_default o) = true /\
    op_eq_nullptr_l (make_MemFkn MemFkn_default o) = true /\
    op_eq_nullptr_r (make_MemFkn MemFkn_default o) = true /\
    v_ptr (m_ptr (make_MemFkn MemFkn_default o)) = o /\
    equal (make_MemFkn MemFkn_default o) delegate_default = false /\
    op_ne (make_MemFkn MemFkn_default o) delegate_default = true /\
    (forall (R Args Mem : Type) (VI : ValueInit R) (P : Program R Args Mem)
            (args : Args) (mem : Mem),
       operator_call P (make_MemFkn MemFkn_default o) args mem
         = Some (value_init, mem)).
Proof.
  intros o Ho.
  destruct (null_handle_delegate o Ho) as (Hn & Hnp & Hne).
  split; [intros f; split; [reflexivity | intros this; reflexivity] |].
  split; [intros f; split; [reflexivity |];
          split; [reflexivity | intros this; reflexivity] |].
  split; [exact Hn |]. split; [exact Hnp |]. split; [exact Hnp |].
  split; [reflexivity |]. split; [exact Hne |].
  split; [unfold op_ne, op_eq; rewrite Hne; reflexivity |].
  intros R Args Mem VI P args mem. apply operator_call_null. exact Hn.
Qed.

(** X6 on the counter at [ex_x]. *)
Lemma delegate_from_null_handle_witness :
  ex_x <> nullptr /\
  null (make_MemFkn MemFkn_default ex_x) = true /\
  equal (make_MemFkn MemFkn_default ex_x) delegate_default = false.
Proof.
  assert (Ho : ex_x <> nullptr) by discriminate.
  pose proof (delegate_from_null_handle ex_x Ho)
    as (_ & _ & Hn & _ & _ & _ & Hne & _).
  split; [exact Ho |]. split; [exact Hn | exact Hne].
Defined.

(** ** Calls of member and functor bindings *)

(** X7.  A delegate bound to member function [m] of class [T] and the
    object at [o] stores the adapter for [m] and the address [o], and a
    call with [a] is the call of [m] on that object with [a].  This holds
    for non-const and const members, through [make], [set] on any
    delegate, and the overloads on [template <auto mFkn>]. *)
Theorem member_binding_call_is_member_call :
  forall (R Args Mem : Type) (VI : ValueInit R) (P : Program R Args Mem)
         (T : ClassName) (m : MemberName) (o : VoidPtr) (a : Args),
    operator_call P (make_member T m o) a = member_fkn P T m o a /\
    operator_call P (make_const_member T m o) a
      = const_member_fkn P T m o a /\
    operator_call P (make_auto (mfp T m) o) a = member_fkn P T m o a /\
    operator_call P (make_auto (mfp_const T m) o) a
      = const_member_fkn P T m o a /\
    (forall this : delegate,
       operator_call P (set_member T m o this) a = member_fkn P T m o a /\
       operator_call P (set_const_member T m o this) a
         = const_member_fkn P T m o a /\
       operator_call P (set_auto (mfp T m) o this) a
         = member_fkn P T m o a /\
       operator_call P (set_auto (mfp_const T m) o this) a
         = const_member_fkn P T m o a) /\
    null (make_member T m o) = false /\
    null (make_const_member T m o) = false /\
    v_ptr (m_ptr (make_member T m o)) = o /\
    v_ptr (m_ptr (make_const_member T m o)) = o.
Proof.
  intros R Args Mem VI P T m o a.
  split; [reflexivity |]. split; [reflexivity |].
  split; [reflexivity |]. split; [reflexivity |].
  split; [intros this; repeat split | repeat split].
Qed.

(** X8.  A delegate bound to the function object at [o] of class
    [Functor] stores its address, and a call with [a] is the call of its
    call operator with [a]: the non-const operator for a binding through
    [T&], the const one for a binding through [T const&]. *)
Theorem functor_binding_call_is_functor_call :
  forall (R Args Mem : Type) (VI : ValueInit R) (P : Program R Args Mem)
         (Functor : ClassName) (o : VoidPtr) (a : Args),
    operator_call P (make_functor Functor o) a
      = functor_call P Functor o a /\
    operator_call P (make_const_functor Functor o) a
      = const_functor_call P Functor o a /\
    (forall this : delegate,
       operator_call P (set_functor Functor o this) a
         = functor_call P Functor o a /\
       operator_call P (set_const_functor Functor o this) a
         = const_functor_call P Functor o a) /\
    null (make_functor Functor o) = false /\
    null (make_const_functor Functor o) = false /\
    equal (make_functor Functor o) (make_const_functor Functor o) = false.
Proof.
  intros R Args Mem VI P Functor o a.
  split; [reflexivity |]. split; [reflexivity |].
  split; [intros this; split; reflexivity | repeat split].
Qed.

(** X9.  A delegate bound through the runtime path to a non-null function
    pointer [p] is not null, and a call with [a] is the call of the function
    at [p].  It behaves in every call as the delegate bound to the same
    function through the compile-time path, while [equal] tells the two
    apart. *)
Theorem runtime_binding_call_is_function_call :
  forall (R Args Mem : Type) (VI : ValueInit R) (P : Program R Args Mem)
         (p : TargetFreeCB) (a : Args),
    p <> nullptr ->
    null (make_runtime p) = false /\
    operator_call P (make_runtime p) a = fkn_at P p a /\
    operator_call P (make_fkn p) a = fkn_at P p a /\
    (forall this : delegate,
       operator_call P (set_runtime p this) a = fkn_at P p a /\
       operator_call P (set_fkn p this) a = fkn_at P p a) /\
    operator_call P (make_runtime p) a = operator_call P (make_free p) a /\
    equal (make_runtime p) (make_free p) = false.
Proof.
  intros R Args Mem VI P p a Hp.
  assert (Hrt : operator_call P (make_runtime p) a = fkn_at P p a).
  { unfold operator_call; simpl. unfold run_doRuntimeFkn; simpl.
    apply call_fkn_nonnull. exact Hp. }
  assert (Hfree : operator_call P (make_free p) a = fkn_at P p a).
  { unfold make_free, delegate_of_void.
    rewrite (proj2 (fkn_nonnull_true_iff p) Hp).
    unfold operator_call; simpl. unfold run_doFreeCB.
    apply call_fkn_nonnull. exact Hp. }
  split; [reflexivity |]. split; [exact Hrt |]. split; [exact Hrt |].
  split; [intros this; split; exact Hrt |].
  split; [rewrite Hrt, Hfree; reflexivity |].
  unfold make_free, delegate_of_void.
  rewrite (proj2 (fkn_nonnull_true_iff p) Hp). reflexivity.
Qed.

(** X9 on [twice]: the call returns 42. *)
Lemma runtime_binding_call_is_function_call_witness :
  ex_twice <> nullptr /\
  operator_call ex_program (make_runtime ex_twice) 21 ex_mem
    = Some (42, ex_mem).
Proof.
  assert (Hp : ex_twice <> nullptr) by discriminate.
  split; [exact Hp |].
  rewrite (proj1 (proj2 (runtime_binding_call_is_function_call
                           Z Z ex_Mem _ ex_program ex_twice 21 Hp))).
  reflexivity.
Defined.

(** ** Mutators replace the whole binding *)

Lemma apply_mutator_const (m : Mutator) (this1 this2 : delegate) :
  apply_mutator m this1 = apply_mutator m this2.
Proof. destruct m; reflexivity. Qed.

(** X10.  Every mutator writes both members: its result does not depend
    on what the delegate was bound to before and is the delegate the
    matching [make] factory returns ([clear] gives the default-constructed
    delegate).  So of two mutator calls in a row on one variable, the
    second alone decides the variable's value. *)
Theorem mutator_replaces_whole_binding :
  (forall (m : Mutator) (this1 this2 : delegate),
     apply_mutator m this1 = apply_mutator m this2) /\
  (forall (x : string) (m1 m2 : Mutator) (vars : gmap string delegate),
     mutate_all [(x, m1); (x, m2)] vars = mutate_all [(x, m2)] vars) /\
  (forall this : delegate,
     clear this = delegate_default /\
     (forall fkn, set_free fkn this = make_free fkn) /\
     (forall T m o, set_member T m o this = make_member T m o) /\
     (forall T m o,
        set_const_member T m o this = make_const_member T m o) /\
     (forall T o, set_functor T o this = make_functor T o) /\
     (forall T o, set_const_functor T o this = make_const_functor T o) /\
     (forall fkn, set_runtime fkn this = make_runtime fkn) /\
     (forall fkn, set_fkn fkn this = make_fkn fkn) /\
     (forall f o, set_MemFkn f o this = make_MemFkn f o) /\
     (forall f o, set_MemFkn_const f o this = make_MemFkn_const f o) /\
     (forall f o,
        set_MemFkn_const_obj f o this = make_MemFkn_const_obj f o) /\
     (forall mFkn o, set_auto mFkn o this = make_auto mFkn o)).
Proof.
  split; [exact apply_mutator_const |]. split.
  - intros x m1 m2 vars. simpl. unfold mutate.
    destruct (vars !! x) as [this |] eqn:Hx; [| reflexivity].
    rewrite lookup_insert_eq, insert_insert_eq.
    rewrite (apply_mutator_const m2 (apply_mutator m1 this) this).
    reflexivity.
  - intros this. repeat split.
Qed.

(** ** The union member in use *)

Lemma active_member_ok_shape (d : delegate) :
  active_member_ok d = true ->
  (m_cb d = doRuntimeFkn <-> exists p, m_ptr d = DataPtr_fkn p).
Proof.
  destruct d as [cb [p | p]]; destruct cb; simpl; intros H;
    try discriminate; split;
    try (intros [q Hq]; discriminate);
    try (intros Hcb; discriminate);
    try (intros _; eexists; reflexivity); intros _; reflexivity.
Qed.

(** X11.  Start from variables whose union holds the member their adapter
    reads, and run any sequence of mutator calls a program can write.
    Then every variable still does: [fkn_ptr] is the member in use exactly
    under [doRuntimeFkn], so [equal], [less] and the adapters never read
    the other member, and [equal] on two variables is true exactly when
    they hold the same adapter and the same payload. *)
Theorem mutators_keep_union_member_in_use :
  forall (calls : list (string * Mutator))
         (vars vars' : gmap string delegate),
    Forall (fun xm => mutator_ok (snd xm) = true) calls ->
    (forall x d, vars !! x = Some d -> active_member_ok d = true) ->
    mutate_all calls vars = Some vars' ->
    forall (x : string) (d : delegate),
      vars' !! x = Some d ->
      active_member_ok d = true /\
      (m_cb d = doRuntimeFkn <-> exists p, m_ptr d = DataPtr_fkn p) /\
      (forall (y : string) (e : delegate),
         vars' !! y = Some e -> (equal d e = true <-> d = e)).
Proof.
  intros calls vars vars' Hall Hinv Hrun x d Hx.
  pose proof (active_member_ok_mutate_all calls vars vars' Hall Hinv Hrun)
    as Hinv'.
  pose proof (Hinv' x d Hx) as Hd.
  split; [exact Hd |]. split; [apply active_member_ok_shape; exact Hd |].
  intros y e Hy. apply equal_true_iff_eq; [exact Hd | exact (Hinv' y e Hy)].
Qed.

(** X11 on the example variable [d], rebound to [twice] through the
    runtime path. *)
Lemma mutators_keep_union_member_in_use_witness :
  exists vars' : gmap string delegate,
    mutate_all [("d", SetRuntime ex_twice)] ex_vars = Some vars' /\
    vars' !! "d" = Some (make_runtime ex_twice) /\
    active_member_ok (make_runtime ex_twice) = true.
Proof.
  set (vars' := <["d" := make_runtime ex_twice]> ex_vars).
  assert (Hrun : mutate_all [("d", SetRuntime ex_twice)] ex_vars
                 = Some vars') by reflexivity.
  assert (Hd : vars' !! "d" = Some (make_runtime ex_twice))
    by reflexivity.
  assert (Hall : Forall (fun xm : string * Mutator =>
                           mutator_ok (snd xm) = true)
                   [("d", SetRuntime ex_twice)]).
  { apply Forall_cons. split; [reflexivity | apply Forall_nil_2]. }
  assert (Hinv : forall x d, ex_vars !! x = Some d ->
                             active_member_ok d = true).
  { intros x d. unfold ex_vars. rewrite lookup_insert.
    case_decide; [intros [= <-]; reflexivity |].
    rewrite lookup_empty. discriminate. }
  exists vars'. split; [exact Hrun |]. split; [exact Hd |].
  exact (proj1 (mutators_keep_union_member_in_use
                  [("d", SetRuntime ex_twice)] ex_vars vars'
                  Hall Hinv Hrun "d" (make_runtime ex_twice) Hd)).
Defined.

(** ** Handles *)

(** X12.  Two handles are [equal] exactly when they hold the same
    adapter.  Handles made by [memFkn] are equal exactly when made for the
    same member function of the same class; they are never null, while the
    default-constructed handle is null, and comparing a handle with the
    default-constructed one is the null test. *)
Theorem memfkn_handle_identity :
  (forall (cnst : bool) (lhs rhs : MemFkn cnst),
     MemFknOps.equal lhs rhs = true <-> lhs = rhs) /\
  (forall (T T' : ClassName) (m m' : MemberName),
     (MemFknOps.equal (memFkn T m) (memFkn T' m') = true <->
      T = T' /\ m = m') /\
     (MemFknOps.equal (memFkn_const T m) (memFkn_const T' m') = true <->
      T = T' /\ m = m')) /\
  (forall (T : ClassName) (m : MemberName),
     MemFknOps.null (memFkn T m) = false /\
     MemFknOps.to_bool (memFkn T m) = true /\
     MemFknOps.null (memFkn_const T m) = false /\
     MemFknOps.to_bool (memFkn_const T m) = true) /\
  (forall (mFkn : MemberFknPtr),
     MemFknOps.null (memFkn_auto mFkn) = false) /\
  (forall (cnst : bool) (f : MemFkn cnst),
     MemFknOps.null (@MemFkn_default cnst) = true /\
     MemFknOps.equal f MemFkn_default = MemFknOps.null f).
Proof.
  split; [exact MemFkn_equal_true_iff |].
  split.
  - intros T T' m m'. unfold MemFknOps.equal; simpl.
    rewrite !bool_decide_eq_true. split; split; intros H;
      first [injection H as -> ->; split; reflexivity
            | destruct H as [-> ->]; reflexivity].
  - split; [intros T m; repeat split |].
    split; [intros mFkn; destruct mFkn; reflexivity |].
    intros cnst f. split; reflexivity.
Qed.

Section HandleOrder.

Variable addr : Trampoline -> Z.
Hypothesis addr_inj : forall a b : Trampoline, addr a = addr b -> a = b.
Hypothesis addr_null_lowest : forall t : Trampoline,
  addr doNullFkn <= addr t.


End HandleOrder.



(** ** Which bindings leave a delegate null *)

(** X14.  After a mutator call the delegate is null in these cases only:
    [clear]; [set<fkn>()] with a null [fkn]; a [set] with a null handle;
    assignment of a null delegate.  Every binding to an object, a function
    object or a runtime function pointer leaves it non-null, whatever the
    pointer.  The boolean conversion is the negation throughout. *)
Theorem null_after_mutator :
  forall (m : Mutator) (this : delegate),
    null (apply_mutator m this)
    = match m with
      | Clear => true
      | SetFree fkn => fkn =? nullptr
      | SetMemFkn f _ => MemFknOps.null f
      | SetMemFknConst f _ | SetMemFknConstObj f _ => MemFknOps.null f
      | Assign rhs => null rhs
      | SetMember _ _ _ | SetConstMember _ _ _ | SetFunctor _ _
      | SetConstFunctor _ _ | SetRuntime _ | SetFkn _ | SetAuto _ _ => false
      end
    /\ to_bool (apply_mutator m this) = negb (null (apply_mutator m this))
    /\ op_eq_nullptr_l (apply_mutator m this) = null (apply_mutator m this)
    /\ op_ne_nullptr_r (apply_mutator m this)
       = to_bool (apply_mutator m this).
Proof.
  intros m this. split; [| repeat split].
  destruct m; try reflexivity.
  - simpl. unfold set_free, null, fkn_nonnull; simpl.
    destruct (fkn =? nullptr); reflexivity.
  - destruct mFkn; reflexivity.
Qed.
